(** * ArkraLenderSearchEngine: the lender scraper of [main.py]

    A shallow embedding of [main.py] and the properties of its extraction,
    fallback, normalisation, batch and CSV stages.

    Conventions of the embedding.
    - A Python [str] is a list of Unicode code points ([pystr]).
    - [json.loads] is CPython's decoder ([_json.c]: [scan_once],
      [_parse_object], [_parse_array], [scanstring], [_match_number]),
      embedded as a total function; the interpreter's resource limits
      (recursion depth, integer digit limit) are not part of the model.
    - The outside world (browser, HTML reducer, remote model, clock) is a
      record of outcomes, each call either returning or raising.
    - The Unicode tables the [re] module consults (word characters, letter
      case) are a parameter ([Unicode]); [Worlds.ascii_unicode] is their
      ASCII part.
    - Text streams (console, error log, CSV file) hold code points; character
      encoding and file-system failures are outside the model. *)

From Stdlib Require Import String Ascii List ZArith NArith Lia Bool DecimalString.
Import ListNotations.

Set Implicit Arguments.
Set Warnings "-register-all".

(** ** Python strings *)

Module Py.

Definition pystr := list N.

(** An ASCII literal of the source as a [pystr]. *)
Fixpoint str (s : string) : pystr :=
  match s with
  | EmptyString => []
  | String a r => N_of_ascii a :: str r
  end.

Definition ch (a : ascii) : N := N_of_ascii a.

Fixpoint str_eqb (a b : pystr) : bool :=
  match a, b with
  | [], [] => true
  | x :: a', y :: b' => N.eqb x y && str_eqb a' b'
  | _, _ => false
  end.

(** [str.isspace] for one code point ([_PyUnicode_IsWhitespace]). *)
Definition isspace (c : N) : bool :=
  ((9 <=? c) && (c <=? 13) || (28 <=? c) && (c <=? 32)
   || (c =? 133) || (c =? 160) || (c =? 5760)
   || (8192 <=? c) && (c <=? 8202)
   || (c =? 8232) || (c =? 8233) || (c =? 8239) || (c =? 8287)
   || (c =? 12288))%N.

Fixpoint lstrip (s : pystr) : pystr :=
  match s with
  | c :: r => if isspace c then lstrip r else s
  | [] => []
  end.

Definition rstrip (s : pystr) : pystr := rev (lstrip (rev s)).

(** [s.strip()] *)
Definition strip (s : pystr) : pystr := rstrip (lstrip s).

(** [s.startswith(c)] for a one-character prefix. *)
Definition startswith (s : pystr) (c : N) : bool :=
  match s with
  | x :: _ => N.eqb x c
  | [] => false
  end.

(** [s.find(c)]: the least index of [c], or -1. *)
Fixpoint find (s : pystr) (c : N) : Z :=
  match s with
  | [] => -1
  | x :: r =>
      if N.eqb x c then 0
      else let i := find r c in if (i <? 0)%Z then -1 else (i + 1)%Z
  end.

(** [s.rfind(c)]: the greatest index of [c], or -1. *)
Fixpoint rfind (s : pystr) (c : N) : Z :=
  match s with
  | [] => -1
  | x :: r =>
      let i := rfind r c in
      if (0 <=? i)%Z then (i + 1)%Z
      else if N.eqb x c then 0 else -1
  end.

(** A slice index clamped as [PySlice_AdjustIndices] does for step 1. *)
Definition clamp (len i : Z) : Z :=
  if (i <? 0)%Z then Z.max 0 (i + len) else Z.min i len.

(** [s[start:stop]] *)
Definition slice (s : pystr) (start stop : Z) : pystr :=
  let len := Z.of_nat (length s) in
  let a := clamp len start in
  let b := clamp len stop in
  firstn (Z.to_nat (b - a)) (skipn (Z.to_nat a) s).

(** [sep.join(parts)] *)
Fixpoint join (sep : pystr) (parts : list pystr) : pystr :=
  match parts with
  | [] => []
  | [p] => p
  | p :: rest => p ++ sep ++ join sep rest
  end.

(** Truth value of a [str]. *)
Definition nonempty (s : pystr) : bool :=
  match s with [] => false | _ => true end.

End Py.
Export Py.

(** ** Decoded JSON values *)

(** A Python [float] as the decoder builds it: the double nearest to the
    decimal numeral read, or one of the three constants. *)
Inductive pyfloat :=
| FNaN
| FInfinity (negative : bool)
| FDecimal (negative : bool) (digits : N) (exp10 : Z).

Inductive json :=
| JNull
| JBool (b : bool)
| JInt (z : Z)
| JFloat (f : pyfloat)
| JStr (s : pystr)
| JArr (items : list json)
| JObj (members : list (pystr * json)).

(** A [dict] keeps its keys in insertion order. *)
Definition pydict := list (pystr * json).

Fixpoint dict_get (d : pydict) (k : pystr) : option json :=
  match d with
  | [] => None
  | (k', v) :: r => if str_eqb k' k then Some v else dict_get r k
  end.

Definition dict_contains (d : pydict) (k : pystr) : bool :=
  match dict_get d k with Some _ => true | None => false end.

(** [d[k] = v]: an existing key keeps its position. *)
Fixpoint dict_set (d : pydict) (k : pystr) (v : json) : pydict :=
  match d with
  | [] => [(k, v)]
  | (k', v') :: r =>
      if str_eqb k' k then (k', v) :: r else (k', v') :: dict_set r k v
  end.

Definition dict_keys (d : pydict) : list pystr := map fst d.

(** The double nearest to [digits * 10^exp10] is zero exactly when the
    numeral is at most half the least subnormal, 2^-1075 (ties to even). *)
Definition rounds_to_zero (digits : N) (exp10 : Z) : bool :=
  (digits =? 0)%N
  || ((exp10 <? 0)%Z
      && (Z.of_N digits * 2 ^ 1075 <=? 10 ^ (- exp10))%Z).

(** Python truth value of a decoded value. *)
Definition truthy (v : json) : bool :=
  match v with
  | JNull => false
  | JBool b => b
  | JInt z => negb (z =? 0)%Z
  | JFloat FNaN => true
  | JFloat (FInfinity _) => true
  | JFloat (FDecimal _ d e) => negb (rounds_to_zero d e)
  | JStr s => nonempty s
  | JArr l => match l with [] => false | _ => true end
  | JObj m => match m with [] => false | _ => true end
  end.

(** [v == s] for a [str] [s]: only an equal string compares equal. *)
Definition eq_str (v : json) (s : pystr) : bool :=
  match v with
  | JStr t => str_eqb t s
  | _ => false
  end.

(** ** [json.loads] *)

Module Json.

(** The outcome of a scanning step: a value and the text after it, a decode
    error, or the recursion budget of the embedding exhausted. *)
Inductive scan (A : Type) :=
| Scanned (a : A) (rest : pystr)
| Invalid
| Exhausted.
Arguments Invalid {A}.
Arguments Exhausted {A}.

(** [IS_WHITESPACE]: space, tab, line feed, carriage return. *)
Definition is_ws (c : N) : bool :=
  ((c =? 32) || (c =? 9) || (c =? 10) || (c =? 13))%N.

Fixpoint skip_ws (s : pystr) : pystr :=
  match s with
  | c :: r => if is_ws c then skip_ws r else s
  | [] => []
  end.

Definition is_digit (c : N) : bool := ((48 <=? c) && (c <=? 57))%N.

(** The value of a hexadecimal digit of a [\uXXXX] escape. *)
Definition hex_digit (c : N) : option N :=
  if ((48 <=? c) && (c <=? 57))%N then Some (c - 48)%N
  else if ((97 <=? c) && (c <=? 102))%N then Some (c - 87)%N
  else if ((65 <=? c) && (c <=? 70))%N then Some (c - 55)%N
  else None.

Definition hex4 (a b c d : N) : option N :=
  match hex_digit a, hex_digit b, hex_digit c, hex_digit d with
  | Some x, Some y, Some z, Some w => Some (((x * 16 + y) * 16 + z) * 16 + w)%N
  | _, _, _, _ => None
  end.

Definition is_high_surrogate (c : N) : bool := ((55296 <=? c) && (c <=? 56319))%N.
Definition is_low_surrogate (c : N) : bool := ((56320 <=? c) && (c <=? 57343))%N.
Definition join_surrogates (hi lo : N) : N :=
  (65536 + ((hi - 55296) * 1024 + (lo - 56320)))%N.

(** The character a one-letter escape stands for. *)
Definition simple_escape (c : N) : option N :=
  if (c =? 34)%N then Some 34%N          (* quote *)
  else if (c =? 92)%N then Some 92%N     (* backslash *)
  else if (c =? 47)%N then Some 47%N     (* slash *)
  else if (c =? 98)%N then Some 8%N      (* escape b *)
  else if (c =? 102)%N then Some 12%N    (* escape f *)
  else if (c =? 110)%N then Some 10%N    (* escape n *)
  else if (c =? 114)%N then Some 13%N    (* escape r *)
  else if (c =? 116)%N then Some 9%N     (* escape t *)
  else None.

(** [scanstring] in strict mode, entered after the opening quote; [acc]
    holds the characters read so far, last first. A high surrogate escape
    followed by a low surrogate escape (and at least one more character)
    makes one code point. *)
Fixpoint scanstring (fuel : nat) (s : pystr) (acc : pystr) : scan pystr :=
  match fuel with
  | O => Exhausted
  | S fuel' =>
      match s with
      | [] => Invalid                                  (* unterminated *)
      | c :: r =>
          if (c =? 34)%N then Scanned (rev acc) r
          else if (c =? 92)%N then
            match r with
            | [] => Invalid
            | e :: r1 =>
                if (e =? 117)%N then
                  match r1 with
                  | h1 :: h2 :: h3 :: h4 :: r2 =>
                      match hex4 h1 h2 h3 h4 with
                      | None => Invalid
                      | Some u =>
                          let lone := scanstring fuel' r2 (u :: acc) in
                          if is_high_surrogate u then
                            match r2 with
                            | b :: x :: l1 :: l2 :: l3 :: l4 :: r3 =>
                                if (b =? 92)%N && (x =? 117)%N && nonempty r3 then
                                  match hex4 l1 l2 l3 l4 with
                                  | None => Invalid
                                  | Some u2 =>
                                      if is_low_surrogate u2
                                      then scanstring fuel' r3 (join_surrogates u u2 :: acc)
                                      else lone
                                  end
                                else lone
                            | _ => lone
                            end
                          else lone
                      end
                  | _ => Invalid
                  end
                else
                  match simple_escape e with
                  | Some x => scanstring fuel' r1 (x :: acc)
                  | None => Invalid
                  end
            end
          else if (c <=? 31)%N then Invalid            (* control character *)
          else scanstring fuel' r (c :: acc)
      end
  end.

(** The longest run of decimal digits at the head of [s], read as a
    continuation of the numeral [acc], with its length and the text after
    it. *)
Fixpoint digits (s : pystr) (acc : N) (n : nat) : N * nat * pystr :=
  match s with
  | c :: r => if is_digit c then digits r (acc * 10 + (c - 48))%N (S n) else (acc, n, s)
  | [] => (acc, n, [])
  end.

(** The integer part of a numeral: a zero, or a nonzero digit and further
    digits. *)
Definition integer_part (s : pystr) : option (N * pystr) :=
  match s with
  | [] => None
  | d :: r =>
      if negb (is_digit d) then None
      else if (d =? 48)%N then Some (0%N, r)
      else let '(v, _, r') := digits s 0%N 0%nat in Some (v, r')
  end.

(** The fraction: a point and one or more digits, read onto the integer
    part; the number of digits is 0 when there is no fraction. *)
Definition fraction_part (ipart : N) (s : pystr) : N * nat * pystr :=
  match s with
  | p :: ((f :: _) as fr) =>
      if (p =? 46)%N && is_digit f then digits fr ipart 0%nat else (ipart, 0%nat, s)
  | _ => (ipart, 0%nat, s)
  end.

(** The exponent: [e] or [E], an optional sign, one or more digits. *)
Definition exponent_part (s : pystr) : option Z * pystr :=
  match s with
  | e :: er =>
      if ((e =? 101) || (e =? 69))%N then
        let eneg := startswith er 45%N in
        let er1 := if eneg || startswith er 43%N then tl er else er in
        match digits er1 0%N 0%nat with
        | (_, O, _) => (None, s)
        | (v, S _, er2) => (Some (if eneg then (- Z.of_N v)%Z else Z.of_N v), er2)
        end
      else (None, s)
  | [] => (None, s)
  end.

(** [_match_number]: an optional minus sign, the integer part, optionally
    a fraction, optionally an exponent. The value is an [int] without
    fraction and exponent, a [float] otherwise. *)
Definition match_number (s : pystr) : scan json :=
  let neg := startswith s 45%N in
  match integer_part (if neg then tl s else s) with
  | None => Invalid
  | Some (ipart, s2) =>
      let '(mant, nfrac, s3) := fraction_part ipart s2 in
      let '(ex, s4) := exponent_part s3 in
      match nfrac, ex with
      | O, None =>
          Scanned (JInt (if neg then (- Z.of_N ipart)%Z else Z.of_N ipart)) s4
      | _, _ =>
          let e := match ex with Some z => z | None => 0%Z end in
          Scanned (JFloat (FDecimal neg mant (e - Z.of_nat nfrac))) s4
      end
  end.

(** [s] continued by the ASCII word [w]: the text after it. *)
Fixpoint after_word (w s : pystr) : option pystr :=
  match w, s with
  | [], _ => Some s
  | a :: w', b :: s' => if (a =? b)%N then after_word w' s' else None
  | _ :: _, [] => None
  end.

(** The constants [scan_once] recognises by their first letter. *)
Definition constant (c : N) (r : pystr) : option (json * pystr) :=
  if (c =? 110)%N then                         (* null *)
    option_map (pair JNull) (after_word (str "ull") r)
  else if (c =? 116)%N then                    (* true *)
    option_map (pair (JBool true)) (after_word (str "rue") r)
  else if (c =? 102)%N then                    (* false *)
    option_map (pair (JBool false)) (after_word (str "alse") r)
  else if (c =? 78)%N then                     (* NaN *)
    option_map (pair (JFloat FNaN)) (after_word (str "aN") r)
  else if (c =? 73)%N then                     (* Infinity *)
    option_map (pair (JFloat (FInfinity false))) (after_word (str "nfinity") r)
  else if (c =? 45)%N then                     (* -Infinity *)
    option_map (pair (JFloat (FInfinity true))) (after_word (str "Infinity") r)
  else None.

Definition scan_map {A B} (f : A -> B) (x : scan A) : scan B :=
  match x with
  | Scanned a r => Scanned (f a) r
  | Invalid => Invalid
  | Exhausted => Exhausted
  end.

(** [scan_once], with [_parse_object] ([members]) and [_parse_array]
    ([elements]) entered where the next key or element starts. *)
Fixpoint scan_once (fuel : nat) (s : pystr) : scan json :=
  match fuel with
  | O => Exhausted
  | S fuel' =>
      match s with
      | [] => Invalid
      | c :: r =>
          if (c =? 34)%N then                              (* a string *)
            scan_map JStr (scanstring (S (length r)) r [])
          else if (c =? 123)%N then                        (* an object *)
            let r' := skip_ws r in
            if startswith r' 125%N then Scanned (JObj []) (tl r')
            else scan_map JObj (members fuel' r' [])
          else if (c =? 91)%N then                         (* an array *)
            let r' := skip_ws r in
            if startswith r' 93%N then Scanned (JArr []) (tl r')
            else scan_map JArr (elements fuel' r' [])
          else
            match constant c r with
            | Some (v, r') => Scanned v r'
            | None => match_number s
            end
      end
  end

with members (fuel : nat) (s : pystr) (d : pydict) : scan pydict :=
  match fuel with
  | O => Exhausted
  | S fuel' =>
      if startswith s 34%N then
        match scanstring (S (length (tl s))) (tl s) [] with
        | Scanned key r1 =>
            let r1 := skip_ws r1 in
            if startswith r1 58%N then
              match scan_once fuel' (skip_ws (tl r1)) with
              | Scanned v r3 =>
                  let d' := dict_set d key v in
                  let r3 := skip_ws r3 in
                  if startswith r3 125%N then Scanned d' (tl r3)
                  else if startswith r3 44%N then members fuel' (skip_ws (tl r3)) d'
                  else Invalid
              | Invalid => Invalid
              | Exhausted => Exhausted
              end
            else Invalid
        | Invalid => Invalid
        | Exhausted => Exhausted
        end
      else Invalid
  end

with elements (fuel : nat) (s : pystr) (acc : list json) : scan (list json) :=
  match fuel with
  | O => Exhausted
  | S fuel' =>
      match scan_once fuel' s with
      | Scanned v r1 =>
          let r1 := skip_ws r1 in
          if startswith r1 93%N then Scanned (rev (v :: acc)) (tl r1)
          else if startswith r1 44%N then elements fuel' (skip_ws (tl r1)) (v :: acc)
          else Invalid
      | Invalid => Invalid
      | Exhausted => Exhausted
      end
  end.

(** [json.loads(s)] for a [str]: a leading byte order mark is refused,
    white space around the value is skipped, and nothing else may follow
    it. *)
Definition loads_scan (s : pystr) : scan json :=
  if startswith s 65279%N then Invalid
  else
    match scan_once (S (2 * length s)) (skip_ws s) with
    | Scanned v r => match skip_ws r with [] => Scanned v [] | _ => Invalid end
    | Invalid => Invalid
    | Exhausted => Exhausted
    end.

(** [None] stands for the decoder raising [JSONDecodeError]. *)
Definition loads (s : pystr) : option json :=
  match loads_scan s with
  | Scanned v _ => Some v
  | _ => None
  end.

End Json.

(** ** Effects: console, error log, output file, browser *)

(** An exception object. [ExternalError] is raised by a library or service
    call and carries its message. *)
Inductive exn :=
| ExternalError (msg : pystr)
| AttributeError
| TypeError
| JSONDecodeError (doc : pystr)
| ValueError (wrong_fields : list pystr).

(** One call into the browser automation library, and how it ended. *)
Inductive pw_call :=
| PwEnter | PwLaunch | PwNewPage | PwRoute | PwGoto | PwContent | PwClose | PwExit.

Record pw_event := PwEvent { pw_what : pw_call; pw_ok : bool }.

Record State := mkState {
  console : list pystr;          (* lines printed, oldest first *)
  error_log : list pystr;        (* scrape_errors.log: the strings appended *)
  output_file : option pystr;    (* lenders_output.csv, when it exists *)
  pw_trace : list pw_event       (* browser automation calls, oldest first *)
}.

Inductive outcome (A : Type) :=
| Return (a : A)
| Raise (e : exn).
Arguments Raise {A}.

(** A computation over [State] that returns or raises. *)
Definition M (A : Type) := State -> outcome A * State.

Definition ret {A} (a : A) : M A := fun st => (Return a, st).
Definition raise {A} (e : exn) : M A := fun st => (Raise e, st).

Definition bind {A B} (m : M A) (k : A -> M B) : M B :=
  fun st =>
    match m st with
    | (Return a, st') => k a st'
    | (Raise e, st') => (Raise e, st')
    end.

Notation "x <- m ;; k" := (bind m (fun x => k))
  (at level 61, m at next level, right associativity).
Notation "m ;;; k" := (bind m (fun _ => k))
  (at level 61, right associativity).

(** [try: body  except Exception as e: handler e] *)
Definition try_except {A} (body : M A) (handler : exn -> M A) : M A :=
  fun st =>
    match body st with
    | (Return a, st') => (Return a, st')
    | (Raise e, st') => handler e st'
    end.

(** [try: body  finally: final]: [final] runs on both exits, and an
    exception of its own replaces the outcome of [body]. *)
Definition try_finally {A} (body : M A) (final : M unit) : M A :=
  fun st =>
    let '(r, st') := body st in
    match final st' with
    | (Return _, st'') => (r, st'')
    | (Raise e, st'') => (Raise e, st'')
    end.

(** The four effects on the state. *)
Definition add_console (line : pystr) (st : State) : State :=
  mkState (console st ++ [line]) (error_log st) (output_file st) (pw_trace st).

Definition add_log (s : pystr) (st : State) : State :=
  mkState (console st) (error_log st ++ [s]) (output_file st) (pw_trace st).

Definition set_output (content : pystr) (st : State) : State :=
  mkState (console st) (error_log st) (Some content) (pw_trace st).

Definition add_trace (ev : pw_event) (st : State) : State :=
  mkState (console st) (error_log st) (output_file st) (pw_trace st ++ [ev]).

(** [print(line)] *)
Definition print (line : pystr) : M unit :=
  fun st => (Return tt, add_console line st).

(** [f.write(s)] on the error log opened in append mode. *)
Definition append_log (s : pystr) : M unit :=
  fun st => (Return tt, add_log s st).

(** [open(filename, "w")]: the output file is created or truncated. *)
Definition open_output : M unit :=
  fun st => (Return tt, set_output [] st).

(** [f.write(s)] on the output file. *)
Definition write_output (s : pystr) : M unit :=
  fun st =>
    (Return tt,
     set_output (match output_file st with Some c => c | None => [] end ++ s) st).

Definition pw_record (ev : pw_event) : M unit :=
  fun st => (Return tt, add_trace ev st).

(** ** The outside world *)

(** What one page load does at each call of [get_page_html]: [None] is a
    call that returns, [Some e] one that raises [e]. *)
Record page_load := mkLoad {
  on_enter : option exn;         (* sync_playwright().__enter__() *)
  on_launch : option exn;        (* p.firefox.launch(headless=True) *)
  on_new_page : option exn;      (* browser.new_page(...) *)
  on_route : option exn;         (* page.route(...) *)
  on_goto : option exn;          (* page.goto(url, timeout=30000, ...) *)
  on_content : exn + pystr;      (* page.content() *)
  on_close : option exn          (* browser.close() *)
}.

Record World := mkWorld {
  (* datetime.today().strftime('%Y-%m-%d') *)
  today : pystr;
  (* the page load of a URL *)
  browse : pystr -> page_load;
  (* BeautifulSoup(html, "html.parser").get_text(separator=" ", strip=True) *)
  soup_get_text : pystr -> exn + pystr;
  (* client.models.generate_content(model=..., contents=prompt).text *)
  generate_content : pystr -> exn + option pystr;
  (* str(e) of an exception the program itself meets *)
  error_text : exn -> pystr;
  (* str(v) of a decoded value that is neither a str nor None *)
  str_value : json -> pystr
}.

(** [str(e)] *)
Definition str_exn (W : World) (e : exn) : pystr :=
  match e with
  | ExternalError msg => msg
  | _ => error_text W e
  end.

(** The Unicode tables the [re] module consults: [\w], and whether a literal
    of a pattern matches a character under [re.IGNORECASE]. *)
Record Unicode := mkUnicode {
  isword : N -> bool;
  ieq : N -> N -> bool
}.

(** ** The program *)

(** A lender descriptor: an entry of [LENDERS]. *)
Record Lender := mkLender {
  name : pystr;
  url : pystr;
  type : pystr
}.

Definition nl : pystr := [10%N].
Definition quote3 : pystr := [34%N; 34%N; 34%N].

Section Program.

Variable W : World.
Variable U : Unicode.

(** The f-string of [parse_with_gemini]; [url or 'N/A'] falls back on an
    absent or empty URL. *)
Definition prompt (raw_text : pystr) (url : option pystr) : pystr :=
  join nl
    [ [];
      str "You are a data extraction AI working for a commercial lending search engine. ";
      str "Extract structured lending information from the following scraped website text.";
      [];
      str "Return your response in **JSON** with these fields:";
      str "- Lender Name";
      str "- Lender Type (Bank, Credit Union, Independent Lender, Vendor Financing)";
      str "- General Product Types";
      str "- Finance Reasons (Inventory, Expansion, Debt Consolidation, Working Capital, Equipment Purchase, Refinance, N/A)";
      str "- Sub-Product Type (Unsecured Term Loans, SBA, Equipment Loans, etc.)";
      str "- Loan Amount (min and max if available)";
      str "- Starting Rate";
      str "- Term Length";
      str "- Origination Fee";
      str "- Min Time in Business";
      str "- Min Revenue";
      str "- FICO Score";
      str "- Online Application Status (Self-Serve or Consultation Required)";
      str "- Product Page URL";
      str "- Geography Served";
      str "- Veteran Programs";
      str "- Minority Programs";
      str "- Notes (any important details)";
      str "- As-of Date (use today's date)";
      [];
      str "Scraped content:";
      quote3 ++ str " ";
      slice (strip raw_text) 0 10000 ++ str " ";
      quote3 ++ str " ";
      [];
      str "URL: " ++ match url with
                     | Some u => if nonempty u then u else str "N/A"
                     | None => str "N/A"
                     end;
      [];
      str "Only respond with a JSON object.";
      str "    " ].

(** Lines 60-64: the text handed to [json.loads], from the stripped
    response. *)
Definition json_str (text : pystr) : pystr :=
  if startswith text (ch "{") then text
  else
    let start := find text (ch "{") in
    let end_ := (rfind text (ch "}") + 1)%Z in
    slice text start end_.

(** Lines 58-65, the body of the [try]: the response text is [None] when
    the service returned no text, on which [.strip()] raises. *)
Definition parse_response (response_text : option pystr) : M json :=
  match response_text with
  | None => raise AttributeError
  | Some t =>
      let text := strip t in
      match Json.loads (json_str text) with
      | Some v => ret v
      | None => raise (JSONDecodeError (json_str text))
      end
  end.

Definition call_generate_content (p : pystr) : M (option pystr) :=
  match generate_content W p with
  | inl e => raise e
  | inr t => ret t
  end.

Definition parse_with_gemini (raw_text : pystr) (url : option pystr)
  : M (option json) :=
  let prompt := prompt raw_text url in
  try_except
    (response_text <- call_generate_content prompt ;;
     v <- parse_response response_text ;;
     ret (Some v))
    (fun e =>
       print ([10060%N] ++ str " Error parsing with Gemini:" ++ str " " ++ str_exn W e) ;;;
       ret None).

(** *** The fallback parser *)

Definition product_keywords : list (pystr * list pystr) :=
  [ (str "Term Loans", [str "term loan"; str "term financing"]);
    (str "Unsecured Loans", [str "unsecured loan"; str "no collateral"]);
    (str "Equipment Loans & Leases",
       [str "equipment financing"; str "equipment loan"; str "equipment lease"]);
    (str "Lines of Credit", [str "line of credit"; str "credit line"]);
    (str "Corporate Credit Cards", [str "business credit card"; str "corporate card"]);
    (str "Venture Debt", [str "venture debt"]);
    (str "Vendor Financing", [str "vendor financing"; str "dealer financing"]) ].

Definition is_word (c : option N) : bool :=
  match c with
  | Some x => isword U x
  | None => false
  end.

(** [\b] between the characters [prev] and [next] ([None] at either end of
    the text). *)
Definition boundary (prev next : option N) : bool :=
  xorb (is_word prev) (is_word next).

(** The literal [keyword] at the head of [text], letter case ignored: the
    last character matched and the text after the match. *)
Fixpoint match_literal (keyword text : pystr) (last : option N)
  : option (option N * pystr) :=
  match keyword with
  | [] => Some (last, text)
  | p :: keyword' =>
      match text with
      | c :: text' =>
          if ieq U p c then match_literal keyword' text' (Some c) else None
      | [] => None
      end
  end.

(** [\bkeyword\b] matched where [text] starts, [prev] being the character
    before it. *)
Definition match_here (keyword : pystr) (prev : option N) (text : pystr) : bool :=
  boundary prev (hd_error text)
  && match match_literal keyword text prev with
     | Some (last, rest) => boundary last (hd_error rest)
     | None => false
     end.

Fixpoint search_from (keyword : pystr) (prev : option N) (text : pystr) : bool :=
  match_here keyword prev text
  || match text with
     | c :: r => search_from keyword (Some c) r
     | [] => false
     end.

(** [re.search(rf"\b{keyword}\b", text, re.IGNORECASE)] as a truth value. *)
Definition re_search (keyword text : pystr) : bool :=
  search_from keyword None text.

(** Lines 85-89: the categories with a keyword found, in table order. *)
Definition products (text : pystr) : list pystr :=
  map fst
    (filter (fun pk => existsb (fun keyword => re_search keyword text) (snd pk))
            product_keywords).

Definition NA : json := JStr (str "N/A").

(** Lines 91-111: the record returned. *)
Definition fallback_record (products : list pystr) (lender : Lender)
    (as_of : pystr) : pydict :=
  [ (str "Lender Name", JStr (name lender));
    (str "Lender Type", JStr (type lender));
    (str "General Product Types",
       match products with
       | [] => NA
       | _ => JStr (join (str ", ") products)
       end);
    (str "Finance Reasons", NA);
    (str "Sub-Product Type", NA);
    (str "Loan Amount", NA);
    (str "Starting Rate", NA);
    (str "Term Length", NA);
    (str "Origination Fee", NA);
    (str "Min Time in Business", NA);
    (str "Min Revenue", NA);
    (str "FICO Score", NA);
    (str "Online Application Status", NA);
    (str "Product Page URL", JStr (url lender));
    (str "Geography Served", NA);
    (str "Veteran Programs", NA);
    (str "Minority Programs", NA);
    (str "Notes", JStr (str "Parsed with fallback parser"));
    (str "As-of Date", JStr as_of) ].

Definition fallback_parse_lender_data (text : pystr) (lender : Lender)
    (as_of : pystr) : M pydict :=
  print ([9888%N; 65039%N] ++ str " Using fallback parser for: " ++ name lender) ;;;
  let products := products text in
  ret (fallback_record products lender as_of).

(** *** The lender list and the error log *)

Definition LENDERS : list Lender :=
  [ mkLender (str "36th Street Capital") (str "https://36thstreetcapital.com/")
             (str "Independent Lender");
    mkLender (str "Alliance Funding Group") (str "https://afg.com/")
             (str "Independent Lender");
    mkLender (str "Apple Bank") (str "https://www.applebank.com/") (str "Bank");
    mkLender (str "Associated Bank Equipment Finance")
             (str "https://www.associatedbank.com") (str "Bank");
    mkLender (str "Atlantic Union Equipment Finance")
             (str "https://www.atlanticunionbank.com/") (str "Bank") ].

(** The string [log_failure] writes. *)
Definition log_line (lender : Lender) (reason : pystr) : pystr :=
  name lender ++ str " | " ++ url lender ++ str " | " ++ reason ++ nl.

Definition log_failure (lender : Lender) (reason : pystr) : M unit :=
  append_log (log_line lender reason).

(** *** The page fetcher *)

(** One call into the browser library: traced, and raising when the world
    says so. *)
Definition pw (c : pw_call) (o : option exn) : M unit :=
  match o with
  | None => pw_record (PwEvent c true)
  | Some e => pw_record (PwEvent c false) ;;; raise e
  end.

Definition page_content (load : page_load) : M pystr :=
  match on_content load with
  | inl e => pw_record (PwEvent PwContent false) ;;; raise e
  | inr html => pw_record (PwEvent PwContent true) ;;; ret html
  end.

(** [with sync_playwright() as p: body]: leaving the block stops the
    driver, whichever way the block is left. *)
Definition with_sync_playwright {A} (load : page_load) (body : M A) : M A :=
  pw PwEnter (on_enter load) ;;;
  try_finally body (pw_record (PwEvent PwExit true)).

Definition get_page_html (url : pystr) : M (option pystr) :=
  let load := browse W url in
  with_sync_playwright load
    (pw PwLaunch (on_launch load) ;;;
     pw PwNewPage (on_new_page load) ;;;
     try_finally
       (try_except
          (pw PwRoute (on_route load) ;;;
           pw PwGoto (on_goto load) ;;;
           html <- page_content load ;;
           ret (Some html))
          (fun e =>
             print ([10060%N] ++ str " Playwright failed to load " ++ url
                    ++ str ": " ++ str_exn W e) ;;;
             ret None))
       (pw PwClose (on_close load))).

(** *** The batch runner *)

(** Lines 178-181 on a [dict]. *)
Definition normalize (as_of : pystr) (lender : Lender) (parsed : pydict) : pydict :=
  let parsed := dict_set parsed (str "As-of Date") (JStr as_of) in
  let parsed :=
    dict_set parsed (str "Lender Name")
      (match dict_get parsed (str "Lender Name") with
       | Some v => if truthy v then v else JStr (name lender)
       | None => JStr (name lender)
       end) in
  if negb (dict_contains parsed (str "Lender Type"))
     || match dict_get parsed (str "Lender Type") with
        | Some v => eq_str v (str "N/A")
        | None => false
        end
  then dict_set parsed (str "Lender Type") (JStr (type lender))
  else parsed.

Definition call_soup_get_text (html : pystr) : M pystr :=
  match soup_get_text W html with
  | inl e => raise e
  | inr text => ret text
  end.

(** The body of the [for] loop of [scrape], lines 153-188: the rows
    collected so far, and those after this lender. *)
Definition scrape_lender (as_of : pystr) (rows : list pydict) (lender : Lender)
  : M (list pydict) :=
  let name := name lender in
  let url := url lender in
  print ([128269%N] ++ str " Scraping: " ++ name ++ str " (" ++ url ++ str ")") ;;;
  try_except
    (html <- get_page_html url ;;
     match html with
     | Some ((_ :: _) as html) =>
         text <- call_soup_get_text html ;;
         parsed <- parse_with_gemini text (Some url) ;;
         parsed <- match parsed with
                   | Some v => ret v
                   | None =>
                       d <- fallback_parse_lender_data text lender as_of ;;
                       log_failure lender (str "Gemini failed, used fallback") ;;;
                       ret (JObj d)
                   end ;;
         match parsed with
         | JObj d => ret (rows ++ [normalize as_of lender d])
         | _ => raise TypeError           (* item assignment on a non-dict *)
         end
     | _ =>
         print ([10060%N] ++ str " Failed to fetch " ++ url
                ++ str " - No HTML returned") ;;;
         log_failure lender (str "No HTML returned") ;;;
         ret rows
     end)
    (fun e =>
       print ([10060%N] ++ str " Error scraping " ++ name ++ str ": " ++ str_exn W e) ;;;
       log_failure lender (str "Exception: " ++ str_exn W e) ;;;
       ret rows).

Fixpoint scrape_loop (as_of : pystr) (lenders : list Lender) (rows : list pydict)
  : M (list pydict) :=
  match lenders with
  | [] => ret rows
  | lender :: rest =>
      rows' <- scrape_lender as_of rows lender ;;
      scrape_loop as_of rest rows'
  end.

(** [scrape()] over a lender list. *)
Definition scrape_over (lenders : list Lender) : M (list pydict) :=
  let rows := [] in
  let as_of := today W in
  scrape_loop as_of lenders rows.

Definition scrape : M (list pydict) := scrape_over LENDERS.

End Program.

(** *** The CSV writer *)

Section Csv.

Variable W : World.

(** The text the csv writer gives a field: a [str] as it is, [None] as the
    empty string, anything else through [str()]. *)
Definition cell_text (v : json) : pystr :=
  match v with
  | JStr s => s
  | JNull => []
  | _ => str_value W v
  end.

(** A character that makes the writer quote its field (QUOTE_MINIMAL):
    the delimiter, the quote character, or a character of the line
    terminator. *)
Definition csv_special (c : N) : bool :=
  ((c =? 44) || (c =? 34) || (c =? 13) || (c =? 10))%N.

Definition csv_field (s : pystr) : pystr :=
  if existsb csv_special s
  then [34%N] ++ flat_map (fun c => if (c =? 34)%N then [34%N; 34%N] else [c]) s ++ [34%N]
  else s.

(** One record as [writerow] writes it; a record of one empty field is
    written as a pair of quotes. *)
Definition csv_line (cells : list pystr) : pystr :=
  match cells with
  | [ [] ] => [34%N; 34%N; 13%N; 10%N]
  | _ => join [44%N] (map csv_field cells) ++ [13%N; 10%N]
  end.

Definition mem (k : pystr) (keys : list pystr) : bool :=
  existsb (str_eqb k) keys.

(** [DictWriter._dict_to_list] with [extrasaction="raise"] and
    [restval=""]. *)
Definition dict_to_list (fieldnames : list pystr) (rowdict : pydict)
  : M (list pystr) :=
  match filter (fun k => negb (mem k fieldnames)) (dict_keys rowdict) with
  | [] =>
      ret (map (fun key => match dict_get rowdict key with
                           | Some v => cell_text v
                           | None => []
                           end) fieldnames)
  | wrong_fields => raise (ValueError wrong_fields)
  end.

(** [writer.writerows(rows)]: each row is converted and written in turn. *)
Fixpoint writerows (fieldnames : list pystr) (rows : list pydict) : M unit :=
  match rows with
  | [] => ret tt
  | rowdict :: rest =>
      cells <- dict_to_list fieldnames rowdict ;;
      write_output (csv_line cells) ;;;
      writerows fieldnames rest
  end.

(** The decimal numeral of [len(rows)]. *)
Definition decimal (n : nat) : pystr :=
  str (DecimalString.NilZero.string_of_uint (Nat.to_uint n)).

Definition filename : pystr := str "lenders_output.csv".

Definition write_csv (rows : list pydict) : M unit :=
  match rows with
  | [] => print ([9888%N; 65039%N] ++ str " No data to write.")
  | first :: _ =>
      let keys := dict_keys first in
      open_output ;;;
      write_output (csv_line keys) ;;;
      writerows keys rows ;;;
      print ([9989%N] ++ str " Wrote " ++ decimal (length rows)
             ++ str " lenders to " ++ filename)
  end.

(** The number of lines a reader of the text sees: a line ends at a line
    feed, a carriage return, or the two in that order; text after the last
    terminator counts as one more line. *)
Fixpoint count_lines (s : pystr) : nat :=
  match s with
  | [] => 0
  | c :: r =>
      if (c =? 13)%N && startswith r 10%N then count_lines r
      else if ((c =? 10) || (c =? 13))%N then S (count_lines r)
      else match r with
           | [] => 1
           | _ => count_lines r
           end
  end.

(** [main]: lines 205-207. *)
Definition main (U : Unicode) : M unit :=
  data <- scrape W U ;;
  write_csv data.

End Csv.

(** * The vocabulary of the properties *)

(** [c] occurs in [s] at index [i] and nowhere before. *)
Definition first_at (s : pystr) (c : N) (i : nat) : Prop :=
  nth_error s i = Some c /\ forall k, (k < i)%nat -> nth_error s k <> Some c.

(** [c] occurs in [s] at index [j] and nowhere after. *)
Definition last_at (s : pystr) (c : N) (j : nat) : Prop :=
  nth_error s j = Some c /\ forall k, (j < k)%nat -> nth_error s k <> Some c.

Definition no_linebreak (s : pystr) : bool :=
  forallb (fun c => negb ((c =? 10) || (c =? 13))%N) s.

Definition initial : State := mkState [] [] None [].

(** The two files are left as they were. *)
Definition same_files (st st' : State) : Prop :=
  error_log st' = error_log st /\ output_file st' = output_file st.

(** The value the structured extractor returns. *)
Definition gemini_result (W : World) (raw_text : pystr) (url : option pystr) : option json :=
  match generate_content W (prompt raw_text url) with
  | inr (Some t) => Json.loads (json_str (strip t))
  | _ => None
  end.

(** The exception it catches, if any. *)
Definition gemini_error (W : World) (raw_text : pystr) (url : option pystr) : option exn :=
  match generate_content W (prompt raw_text url) with
  | inl e => Some e
  | inr None => Some AttributeError
  | inr (Some t) =>
      match Json.loads (json_str (strip t)) with
      | Some _ => None
      | None => Some (JSONDecodeError (json_str (strip t)))
      end
  end.

Definition gemini_error_line (W : World) (e : exn) : pystr :=
  [10060%N] ++ str " Error parsing with Gemini:" ++ str " " ++ str_exn W e.

(** The outcome of the page fetcher does not depend on the state it
    starts in. *)
Definition fetch (W : World) (url : pystr) : outcome (option pystr) :=
  fst (get_page_html W url initial).

(** How one lender ends: collected with a record (extracted by the model
    or by the fallback), or dropped with the reason logged. *)
Inductive verdict :=
| Collected (record : pydict) (fallback : bool)
| Dropped (reason : pystr).

Definition records (v : verdict) : list pydict :=
  match v with
  | Collected d _ => [d]
  | Dropped _ => []
  end.

Definition entries (lender : Lender) (v : verdict) : list pystr :=
  match v with
  | Collected _ true => [log_line lender (str "Gemini failed, used fallback")]
  | Collected _ false => []
  | Dropped reason => [log_line lender reason]
  end.

Definition exception_reason (W : World) (e : exn) : pystr :=
  str "Exception: " ++ str_exn W e.

(** The verdict on a lender, read off the world. *)
Definition judge (W : World) (U : Unicode) (as_of : pystr) (lender : Lender) : verdict :=
  match fetch W (url lender) with
  | Raise e => Dropped (exception_reason W e)
  | Return (Some ((_ :: _) as html)) =>
      match soup_get_text W html with
      | inl e => Dropped (exception_reason W e)
      | inr text =>
          match gemini_result W text (Some (url lender)) with
          | Some (JObj d) => Collected (normalize as_of lender d) false
          | Some _ => Dropped (exception_reason W TypeError)
          | None =>
              Collected
                (normalize as_of lender
                   (fallback_record (products U text) lender as_of)) true
          end
      end
  | Return _ => Dropped (str "No HTML returned")
  end.

(** ** Concrete worlds *)

Module Worlds.

Definition ascii_lower (c : N) : N :=
  if ((65 <=? c) && (c <=? 90))%N then (c + 32)%N else c.

Definition ascii_isword (c : N) : bool :=
  ((48 <=? c) && (c <=? 57) || (65 <=? c) && (c <=? 90)
   || (97 <=? c) && (c <=? 122) || (c =? 95))%N.

Definition ascii_ieq (p c : N) : bool := (ascii_lower p =? ascii_lower c)%N.

(** The tables of [re] restricted to ASCII: what they are on ASCII text. *)
Definition ascii_unicode : Unicode := mkUnicode ascii_isword ascii_ieq.

(** A page load in which every call returns, the page holding [html]. *)
Definition loaded (html : pystr) : page_load :=
  mkLoad None None None None None (inr html) None.

Definition markup : pystr := str "<html><body>Equipment Financing</body></html>".
Definition page_text : pystr := str "Equipment Financing".

(** A world in which every page loads as [load], reduces as [reduced], and
    the model answers as [answer]. *)
Definition world (load : page_load) (reduced : exn + pystr)
    (answer : exn + option pystr) : World :=
  mkWorld (str "2025-01-01")
          (fun _ => load)
          (fun _ => reduced)
          (fun _ => answer)
          (fun _ => str "error")
          (fun _ => str "value").

Definition unavailable : exn := ExternalError (str "503 UNAVAILABLE").

(** Every page loads and reduces to [page_text], and the model answers
    [answer] ([None]: the call raises). *)
Definition answering (answer : option pystr) : World :=
  world (loaded markup) (inr page_text)
        (match answer with
         | Some t => inr (Some t)
         | None => inl unavailable
         end).

(** The first entry of [LENDERS]. *)
Definition street : Lender :=
  mkLender (str "36th Street Capital") (str "https://36thstreetcapital.com/")
           (str "Independent Lender").

Definition dq : pystr := [34%N].

(** The response [Sure! {"Lender Name": "X"}]. *)
Definition sure_response : pystr :=
  str "Sure! {" ++ dq ++ str "Lender Name" ++ dq ++ str ": " ++ dq ++ str "X"
  ++ dq ++ str "}".


(** The text reducer raises. *)
Definition soup_fails : World :=
  world (loaded markup) (inl (ExternalError (str "maximum recursion depth exceeded")))
        (inr (Some sure_response)).

(** The page loads with empty markup. *)
Definition empty_markup : World :=
  world (loaded []) (inr page_text) (inr (Some sure_response)).

(** The browser cannot be launched, and says so on two lines. *)
Definition launch_fails : World :=
  world (mkLoad None
                (Some (ExternalError (str "Executable doesn't exist" ++ nl
                                      ++ str "Please run: playwright install")))
                None None None (inr markup) None)
        (inr page_text) (inr (Some sure_response)).

(** The navigation times out. *)
Definition goto_times_out : World :=
  world (mkLoad None None None None
                (Some (ExternalError (str "Timeout 30000ms exceeded.")))
                (inr markup) None)
        (inr page_text) (inr (Some sure_response)).


(** The navigation times out, and closing the browser raises as well. *)
Definition close_fails : World :=
  world (mkLoad None None None None
                (Some (ExternalError (str "Timeout 30000ms exceeded.")))
                (inr markup)
                (Some (ExternalError (str "Connection closed"))))
        (inr page_text) (inr (Some sure_response)).

(** The rows a run returned. *)
Definition returned {A} (r : outcome (list A) * State) : list A :=
  match fst r with
  | Return rows => rows
  | Raise _ => []
  end.

End Worlds.
Import Worlds.

Definition LenderName : pystr := str "Lender Name".
Definition LenderType : pystr := str "Lender Type".
Definition AsOfDate : pystr := str "As-of Date".

(** What the normaliser leaves under "Lender Name": the extractor's value
    when it is there and true, the descriptor's name otherwise. *)
Definition normal_name (lender : Lender) (d : pydict) : json :=
  match dict_get d LenderName with
  | Some v => if truthy v then v else JStr (name lender)
  | None => JStr (name lender)
  end.

(** What it leaves under "Lender Type": the extractor's value when it is
    there and is not "N/A", the descriptor's type otherwise. *)
Definition normal_type (lender : Lender) (d : pydict) : json :=
  match dict_get d LenderType with
  | Some v => if eq_str v (str "N/A") then JStr (type lender) else v
  | None => JStr (type lender)
  end.

Definition pw_index (c : pw_call) : nat :=
  match c with
  | PwEnter => 0 | PwLaunch => 1 | PwNewPage => 2 | PwRoute => 3
  | PwGoto => 4 | PwContent => 5 | PwClose => 6 | PwExit => 7
  end.

(** The call [c] was made. *)
Definition called (c : pw_call) (evs : list pw_event) : bool :=
  existsb (fun ev => Nat.eqb (pw_index (pw_what ev)) (pw_index c)) evs.

(** The call [c] was made and returned. *)
Definition returned_from (c : pw_call) (evs : list pw_event) : bool :=
  existsb (fun ev => Nat.eqb (pw_index (pw_what ev)) (pw_index c) && pw_ok ev) evs.

(** Whether a browser is running after the calls [evs]: a launch that
    returns starts one; a close that returns, and leaving the
    [sync_playwright] block, end it. *)
Definition browser_open (evs : list pw_event) : bool :=
  fold_left
    (fun open ev =>
       match pw_what ev, pw_ok ev with
       | PwLaunch, true => true
       | PwClose, true => false
       | PwExit, _ => false
       | _, _ => open
       end)
    evs false.

(** A failure of the fetch proper: the page was opened, and routing,
    navigation or reading the content raises. *)
Definition fetch_fails (load : page_load) : Prop :=
  on_enter load = None /\ on_launch load = None /\ on_new_page load = None
  /\ (on_route load <> None \/ on_goto load <> None
      \/ exists e, on_content load = inl e).

(** The fields of one record under the header [keys]: a missing key gives
    an empty field. *)
Definition row_cells (W : World) (keys : list pystr) (rowdict : pydict) : list pystr :=
  map (fun key => match dict_get rowdict key with
                  | Some v => cell_text W v
                  | None => []
                  end) keys.

(** Every key of the record is a column of the header. *)
Definition fits (keys : list pystr) (rowdict : pydict) : Prop :=
  forall k, In k (dict_keys rowdict) -> mem k keys = true.

(** The header and the records as the writer lays them out. *)
Definition table (W : World) (first : pydict) (rows : list pydict)
  : list (list pystr) :=
  dict_keys first :: map (row_cells W (dict_keys first)) rows.



Definition is_ascii (s : pystr) : bool := forallb (fun c => (c <? 128)%N) s.

Definition ascii_opt (o : option N) : bool :=
  match o with
  | Some c => (c <? 128)%N
  | None => true
  end.

(** The tables of [U] are, on ASCII characters, those of ASCII: a letter
    matches itself in either case, and the word characters are the
    letters, the digits and the underscore. *)
Definition agrees_on_ascii (U : Unicode) : Prop :=
  (forall p c, (p <? 128)%N = true -> (c <? 128)%N = true ->
               ieq U p c = ascii_ieq p c)
  /\ (forall c, (c <? 128)%N = true -> isword U c = ascii_isword c).

Definition GeneralProductTypes : pystr := str "General Product Types".


(** [r] is what is left of [s] after some of its first characters. *)
Definition suffix (r s : pystr) : Prop := exists p, s = p ++ r.

(** The browser-automation calls of one page load. *)
Definition fetch_trace (W : World) (url : pystr) : list pw_event :=
  pw_trace (snd (get_page_html W url initial)).

(** How many times the call [c] was made. *)
Definition count_calls (c : pw_call) (evs : list pw_event) : nat :=
  length (filter (fun ev => Nat.eqb (pw_index (pw_what ev)) (pw_index c)) evs).


(** The model gives no usable answer, whatever it is asked. *)
Definition model_down (W : World) : Prop :=
  forall text url, gemini_result W text url = None.

(** The field names of the fallback parser's record, in its order. *)
Definition fallback_fieldnames : list pystr :=
  dict_keys (fallback_record [] (mkLender [] [] []) []).

Definition ascii_upper (c : N) : N :=
  if ((97 <=? c) && (c <=? 122))%N then (c - 32)%N else c.

(** * Properties *)

(** ** Strings: [find], [rfind] and slices *)

Lemma find_range (s : pystr) (c : N) :
  (-1 <= find s c < Z.of_nat (length s))%Z.
Proof.
  induction s as [|x r IH]; simpl; [lia|].
  destruct (N.eqb x c); [lia|].
  destruct (find r c <? 0)%Z eqn:E; [lia|].
  apply Z.ltb_ge in E. lia.
Qed.

Lemma find_nth (s : pystr) (c : N) :
  (0 <= find s c)%Z -> nth_error s (Z.to_nat (find s c)) = Some c.
Proof.
  induction s as [|x r IH]; simpl; [lia|].
  destruct (N.eqb x c) eqn:Ex.
  - intros _. apply N.eqb_eq in Ex. subst. reflexivity.
  - destruct (find r c <? 0)%Z eqn:E; [lia|].
    apply Z.ltb_ge in E. intros _.
    replace (Z.to_nat (find r c + 1)) with (S (Z.to_nat (find r c))) by lia.
    simpl. auto.
Qed.

Lemma rfind_range (s : pystr) (c : N) :
  (-1 <= rfind s c < Z.of_nat (length s))%Z.
Proof.
  induction s as [|x r IH]; simpl; [lia|].
  destruct (0 <=? rfind r c)%Z eqn:E.
  - apply Z.leb_le in E. lia.
  - destruct (N.eqb x c); lia.
Qed.

Lemma rfind_nth (s : pystr) (c : N) :
  (0 <= rfind s c)%Z -> nth_error s (Z.to_nat (rfind s c)) = Some c.
Proof.
  induction s as [|x r IH]; simpl; [lia|].
  destruct (0 <=? rfind r c)%Z eqn:E.
  - apply Z.leb_le in E. intros _.
    replace (Z.to_nat (rfind r c + 1)) with (S (Z.to_nat (rfind r c))) by lia.
    simpl. auto.
  - destruct (N.eqb x c) eqn:Ex; [|lia].
    intros _. apply N.eqb_eq in Ex. subst. reflexivity.
Qed.

Lemma find_first_at (s : pystr) (c : N) (i : nat) :
  first_at s c i -> find s c = Z.of_nat i.
Proof.
  revert i. induction s as [|x r IH]; intros i [Hi Hlt].
  - destruct i; discriminate.
  - simpl. destruct (N.eqb x c) eqn:Ex.
    + apply N.eqb_eq in Ex. subst x.
      destruct i; [reflexivity|].
      exfalso. apply (Hlt 0%nat); [lia|reflexivity].
    + destruct i as [|i].
      * simpl in Hi. injection Hi as ->. rewrite N.eqb_refl in Ex. discriminate.
      * rewrite (IH i).
        -- destruct (Z.of_nat i <? 0)%Z eqn:E; [apply Z.ltb_lt in E|]; lia.
        -- split; [exact Hi|]. intros k Hk. apply (Hlt (S k)). lia.
Qed.

Lemma rfind_last_at (s : pystr) (c : N) (j : nat) :
  last_at s c j -> rfind s c = Z.of_nat j.
Proof.
  revert j. induction s as [|x r IH]; intros j [Hj Hgt].
  - destruct j; discriminate.
  - simpl. destruct j as [|j].
    + simpl in Hj. injection Hj as ->.
      destruct (0 <=? rfind r c)%Z eqn:E.
      * apply Z.leb_le in E. pose proof (rfind_nth r c E) as Hn.
        exfalso. apply (Hgt (S (Z.to_nat (rfind r c)))); [lia|exact Hn].
      * rewrite N.eqb_refl. reflexivity.
    + rewrite (IH j).
      * destruct (0 <=? Z.of_nat j)%Z eqn:E; [lia|]. apply Z.leb_gt in E. lia.
      * split; [exact Hj|]. intros k Hk.
        apply (Hgt (S k)). lia.
Qed.

Lemma startswith_true (s : pystr) (c : N) :
  startswith s c = true -> exists r, s = c :: r.
Proof.
  destruct s as [|x r]; simpl; [discriminate|].
  intros E. apply N.eqb_eq in E. subst. eauto.
Qed.

Lemma skipn_nth_cons (A : Type) (s : list A) (i : nat) (c : A) :
  nth_error s i = Some c -> exists r, skipn i s = c :: r.
Proof.
  revert s. induction i as [|i IH]; intros [|x r]; simpl; try discriminate.
  - intros [= ->]. eauto.
  - apply IH.
Qed.

Lemma skipn_last (A : Type) (s : list A) (c : A) :
  nth_error s (length s - 1) = Some c -> skipn (length s - 1) s = [c].
Proof.
  induction s as [|x r IH]; simpl; [discriminate|].
  rewrite Nat.sub_0_r. destruct r as [|y r'].
  - simpl. intros [= ->]. reflexivity.
  - simpl length in *. replace (S (length r') - 1)%nat with (length r') in IH by lia.
    simpl. intros H. apply IH. exact H.
Qed.

(** ** The text handed to the decoder *)

Lemma json_str_startswith (text : pystr) :
  startswith text (ch "{") = true -> json_str text = text.
Proof. unfold json_str. intros ->. reflexivity. Qed.

Lemma clamp_inside (len i : Z) : (0 <= i <= len)%Z -> clamp len i = i.
Proof.
  intros H. unfold clamp. destruct (i <? 0)%Z eqn:E.
  - apply Z.ltb_lt in E. lia.
  - lia.
Qed.

(** The slice runs from the first opening brace to the last closing brace,
    both included, when the text has both. *)
Lemma json_str_between (text : pystr) (i j : nat) :
  startswith text (ch "{") = false ->
  first_at text (ch "{") i -> last_at text (ch "}") j ->
  json_str text = firstn (j + 1 - i) (skipn i text).
Proof.
  intros Hs Hi Hj. unfold json_str. rewrite Hs.
  rewrite (find_first_at Hi), (rfind_last_at Hj).
  assert (Li : (i < length text)%nat) by (apply nth_error_Some; destruct Hi as [-> _]; discriminate).
  assert (Lj : (j < length text)%nat) by (apply nth_error_Some; destruct Hj as [-> _]; discriminate).
  unfold slice. rewrite !clamp_inside by lia.
  rewrite Nat2Z.id. f_equal. lia.
Qed.

(** Whatever the text, the slice is empty, or begins with an opening brace,
    or is a lone closing brace (a text without opening brace that ends with
    a closing one). *)
Lemma json_str_shape (text : pystr) :
  json_str text = []
  \/ startswith (json_str text) (ch "{") = true
  \/ json_str text = [ch "}"].
Proof.
  unfold json_str. destruct (startswith text (ch "{")) eqn:Hs; [auto|].
  pose proof (find_range text (ch "{")) as Hf.
  pose proof (rfind_range text (ch "}")) as Hr.
  unfold slice.
  set (len := Z.of_nat (length text)) in *.
  rewrite (clamp_inside (i := rfind text (ch "}") + 1)) by lia.
  destruct (Z.eq_dec (find text (ch "{")) (-1)) as [E|E].
  - rewrite E. unfold clamp. change (-1 <? 0)%Z with true. cbv iota.
    destruct (Nat.eq_dec (length text) 0) as [E0|E0].
    + left. apply length_zero_iff_nil in E0. rewrite E0.
      rewrite skipn_nil. apply firstn_nil.
    + assert (Hlen : (1 <= len)%Z) by (subst len; lia).
      replace (Z.max 0 (-1 + len)) with (len - 1)%Z by lia.
      destruct (Z.eq_dec (rfind text (ch "}") + 1) len) as [E2|E2].
      * right. right.
        assert (Hn : nth_error text (length text - 1) = Some (ch "}")).
        { replace (length text - 1)%nat with (Z.to_nat (rfind text (ch "}"))) by lia.
          apply rfind_nth. lia. }
        replace (Z.to_nat (len - 1)) with (length text - 1)%nat by lia.
        rewrite (skipn_last _ Hn).
        replace (Z.to_nat (rfind text (ch "}") + 1 - (len - 1))) with 1%nat by lia.
        reflexivity.
      * left. replace (Z.to_nat (rfind text (ch "}") + 1 - (len - 1))) with 0%nat by lia.
        reflexivity.
  - assert (H0 : (0 <= find text (ch "{"))%Z) by lia.
    rewrite (clamp_inside (i := find text (ch "{"))) by lia.
    destruct (skipn_nth_cons _ _ (find_nth text (ch "{") H0)) as [r ->].
    destruct (Z.to_nat (rfind text (ch "}") + 1 - find text (ch "{"))); simpl; auto.
Qed.

(** ** The decoder never runs out of budget *)

Module JsonFacts.
Import Json.

Lemma skip_ws_length (s : pystr) : (length (skip_ws s) <= length s)%nat.
Proof.
  induction s as [|c r IH]; simpl; [lia|].
  destruct (is_ws c); simpl; lia.
Qed.

Lemma tl_length (s : pystr) : (length (tl s) <= length s)%nat.
Proof. destruct s; simpl; lia. Qed.

Lemma startswith_tl_length (s : pystr) (c : N) :
  startswith s c = true -> (S (length (tl s)) = length s)%nat.
Proof. destruct s; simpl; [discriminate|reflexivity]. Qed.

Lemma scanstring_shorter (fuel : nat) :
  forall s acc k r, scanstring fuel s acc = Scanned k r -> (length r < length s)%nat.
Proof.
  induction fuel as [|fuel IH]; intros s acc k r; simpl; [discriminate|].
  destruct s as [|c s1]; [discriminate|].
  destruct (c =? 34)%N; [intros [= _ <-]; simpl; lia|].
  destruct (c =? 92)%N.
  - destruct s1 as [|e r1]; [discriminate|].
    destruct (e =? 117)%N.
    + destruct r1 as [|h1 [|h2 [|h3 [|h4 r2]]]]; try discriminate.
      destruct (hex4 h1 h2 h3 h4) as [u|]; [|discriminate].
      assert (Lone : scanstring fuel r2 (u :: acc) = Scanned k r ->
                     (length r < length (c :: e :: h1 :: h2 :: h3 :: h4 :: r2))%nat).
      { intros H. apply IH in H. simpl. lia. }
      destruct (is_high_surrogate u); [|exact Lone].
      destruct r2 as [|b [|x [|l1 [|l2 [|l3 [|l4 r3]]]]]]; try exact Lone.
      destruct ((b =? 92)%N && (x =? 117)%N && nonempty r3); [|exact Lone].
      destruct (hex4 l1 l2 l3 l4) as [u2|]; [|discriminate].
      destruct (is_low_surrogate u2); [|exact Lone].
      intros H. apply IH in H. simpl. lia.
    + destruct (simple_escape e); [|discriminate].
      intros H. apply IH in H. simpl. lia.
  - destruct (c <=? 31)%N; [discriminate|].
    intros H. apply IH in H. simpl. lia.
Qed.

Lemma scanstring_total (fuel : nat) :
  forall s acc, (length s < fuel)%nat -> scanstring fuel s acc <> Exhausted.
Proof.
  induction fuel as [|fuel IH]; intros s acc L; [lia|]. simpl.
  destruct s as [|c s1]; [discriminate|]. simpl in L.
  destruct (c =? 34)%N; [discriminate|].
  destruct (c =? 92)%N.
  - destruct s1 as [|e r1]; [discriminate|].
    destruct (e =? 117)%N.
    + destruct r1 as [|h1 [|h2 [|h3 [|h4 r2]]]]; try discriminate.
      destruct (hex4 h1 h2 h3 h4) as [u|]; [|discriminate].
      simpl in L.
      assert (Lone : scanstring fuel r2 (u :: acc) <> Exhausted) by (apply IH; lia).
      destruct (is_high_surrogate u); [|exact Lone].
      destruct r2 as [|b [|x [|l1 [|l2 [|l3 [|l4 r3]]]]]]; try exact Lone.
      destruct ((b =? 92)%N && (x =? 117)%N && nonempty r3); [|exact Lone].
      destruct (hex4 l1 l2 l3 l4) as [u2|]; [|discriminate].
      destruct (is_low_surrogate u2); [|exact Lone].
      apply IH. simpl in L. lia.
    + destruct (simple_escape e); [|discriminate].
      apply IH. simpl in L. lia.
  - destruct (c <=? 31)%N; [discriminate|]. apply IH. lia.
Qed.

Lemma digits_length (s : pystr) :
  forall acc n v m r, digits s acc n = (v, m, r) ->
    (length r <= length s)%nat /\ (n < m -> length r < length s)%nat.
Proof.
  induction s as [|c s1 IH]; intros acc n v m r; simpl.
  - intros [= _ <- <-]. simpl. lia.
  - destruct (is_digit c).
    + intros H. apply IH in H. lia.
    + intros [= _ <- <-]. simpl. lia.
Qed.

Lemma integer_part_shorter (s : pystr) (v : N) (r : pystr) :
  integer_part s = Some (v, r) -> (length r < length s)%nat.
Proof.
  unfold integer_part. destruct s as [|d s1]; [discriminate|].
  destruct (is_digit d) eqn:Ed; simpl negb; cbv iota; [|discriminate].
  destruct (d =? 48)%N; [intros [= _ <-]; simpl; lia|].
  destruct (digits (d :: s1) 0 0) as [[v' m] r'] eqn:E.
  intros [= _ <-]. simpl in E. rewrite Ed in E.
  apply digits_length in E. simpl. lia.
Qed.

Lemma fraction_part_length (ipart : N) (s : pystr) (v : N) (m : nat) (r : pystr) :
  fraction_part ipart s = (v, m, r) -> (length r <= length s)%nat.
Proof.
  unfold fraction_part. destruct s as [|p [|f fr]]; try (intros [= _ _ <-]; lia).
  destruct ((p =? 46)%N && is_digit f); [|intros [= _ _ <-]; lia].
  intros H. apply digits_length in H. simpl in *. lia.
Qed.

Lemma exponent_part_length (s : pystr) (e : option Z) (r : pystr) :
  exponent_part s = (e, r) -> (length r <= length s)%nat.
Proof.
  unfold exponent_part. destruct s as [|c er]; [intros [= _ <-]; lia|].
  destruct ((c =? 101) || (c =? 69))%N; [|intros [= _ <-]; lia].
  destruct (digits _ 0 0) as [[v m] r'] eqn:E.
  apply digits_length in E. destruct E as [E _].
  destruct m; intros [= _ <-]; [apply Nat.le_refl|].
  pose proof (tl_length er).
  destruct (startswith er 45 || startswith er 43); simpl in *; lia.
Qed.

Lemma match_number_shorter (s : pystr) (v : json) (r : pystr) :
  match_number s = Scanned v r -> (length r < length s)%nat.
Proof.
  unfold match_number.
  destruct (integer_part _) as [[ipart s2]|] eqn:Ei; [|discriminate].
  apply integer_part_shorter in Ei.
  destruct (fraction_part ipart s2) as [[mant nfrac] s3] eqn:Ef.
  apply fraction_part_length in Ef.
  destruct (exponent_part s3) as [ex s4] eqn:Ee.
  apply exponent_part_length in Ee.
  assert (length s4 < length s)%nat.
  { pose proof (tl_length s). destruct (startswith s 45); lia. }
  destruct nfrac, ex; intros [= _ <-]; assumption.
Qed.

Lemma match_number_total (s : pystr) : match_number s <> Exhausted.
Proof.
  unfold match_number.
  destruct (integer_part _) as [[ipart s2]|]; [|discriminate].
  destruct (fraction_part ipart s2) as [[mant nfrac] s3].
  destruct (exponent_part s3) as [ex s4].
  destruct nfrac, ex; discriminate.
Qed.

Lemma after_word_length (w s r : pystr) :
  after_word w s = Some r -> (length r <= length s)%nat.
Proof.
  revert s. induction w as [|a w IH]; intros [|b s]; simpl; try discriminate.
  - intros [= <-]. simpl. lia.
  - intros [= <-]. simpl. lia.
  - destruct (a =? b)%N; [|discriminate]. intros H. apply IH in H. lia.
Qed.

Lemma constant_length (c : N) (r : pystr) (v : json) (r' : pystr) :
  constant c r = Some (v, r') -> (length r' <= length r)%nat.
Proof.
  unfold constant.
  repeat match goal with
         | |- context [if ?b then _ else _] => destruct b
         end;
    try discriminate;
    (destruct (after_word _ r) as [x|] eqn:E; [|discriminate];
     intros [= _ <-]; exact (after_word_length _ _ E)).
Qed.

(** The unfolding equations of the three scanners. *)
Lemma scan_once_eq (fuel : nat) (c : N) (r : pystr) :
  scan_once (S fuel) (c :: r) =
  if (c =? 34)%N then scan_map JStr (scanstring (S (length r)) r [])
  else if (c =? 123)%N then
    if startswith (skip_ws r) 125%N then Scanned (JObj []) (tl (skip_ws r))
    else scan_map JObj (members fuel (skip_ws r) [])
  else if (c =? 91)%N then
    if startswith (skip_ws r) 93%N then Scanned (JArr []) (tl (skip_ws r))
    else scan_map JArr (elements fuel (skip_ws r) [])
  else match constant c r with
       | Some (v, r') => Scanned v r'
       | None => match_number (c :: r)
       end.
Proof. reflexivity. Qed.

Lemma members_eq (fuel : nat) (s : pystr) (d : pydict) :
  members (S fuel) s d =
  if startswith s 34%N then
    match scanstring (S (length (tl s))) (tl s) [] with
    | Scanned key r1 =>
        if startswith (skip_ws r1) 58%N then
          match scan_once fuel (skip_ws (tl (skip_ws r1))) with
          | Scanned v r3 =>
              if startswith (skip_ws r3) 125%N
              then Scanned (dict_set d key v) (tl (skip_ws r3))
              else if startswith (skip_ws r3) 44%N
                   then members fuel (skip_ws (tl (skip_ws r3))) (dict_set d key v)
                   else Invalid
          | Invalid => Invalid
          | Exhausted => Exhausted
          end
        else Invalid
    | Invalid => Invalid
    | Exhausted => Exhausted
    end
  else Invalid.
Proof. reflexivity. Qed.

Lemma elements_eq (fuel : nat) (s : pystr) (acc : list json) :
  elements (S fuel) s acc =
  match scan_once fuel s with
  | Scanned v r1 =>
      if startswith (skip_ws r1) 93%N then Scanned (rev (v :: acc)) (tl (skip_ws r1))
      else if startswith (skip_ws r1) 44%N
           then elements fuel (skip_ws (tl (skip_ws r1))) (v :: acc)
           else Invalid
  | Invalid => Invalid
  | Exhausted => Exhausted
  end.
Proof. reflexivity. Qed.

(** A scanned value leaves strictly less text than it was given. *)
Lemma scan_shorter (fuel : nat) :
  (forall s v r, scan_once fuel s = Scanned v r -> (length r < length s)%nat)
  /\ (forall s d d' r, members fuel s d = Scanned d' r -> (length r < length s)%nat)
  /\ (forall s acc l r, elements fuel s acc = Scanned l r -> (length r < length s)%nat).
Proof.
  induction fuel as [|fuel (IHs & IHm & IHe)].
  { repeat split; intros; discriminate. }
  repeat split.
  - intros [|c r0] v r; [discriminate|]. rewrite scan_once_eq.
    pose proof (skip_ws_length r0) as Lw. pose proof (tl_length (skip_ws r0)) as Lt.
    destruct (c =? 34)%N.
    { destruct (scanstring _ r0 []) eqn:E; simpl; try discriminate.
      intros [= _ <-]. apply scanstring_shorter in E. simpl. lia. }
    destruct (c =? 123)%N.
    { destruct (startswith _ 125).
      - intros [= _ <-]. simpl. lia.
      - destruct (members fuel _ []) eqn:E; simpl; try discriminate.
        intros [= _ <-]. apply IHm in E. simpl. lia. }
    destruct (c =? 91)%N.
    { destruct (startswith _ 93).
      - intros [= _ <-]. simpl. lia.
      - destruct (elements fuel _ []) eqn:E; simpl; try discriminate.
        intros [= _ <-]. apply IHe in E. simpl. lia. }
    destruct (constant c r0) as [[v' r']|] eqn:E.
    + intros [= _ <-]. apply constant_length in E. simpl. lia.
    + apply match_number_shorter.
  - intros s d d' r. rewrite members_eq.
    destruct (startswith s 34) eqn:Eq; [|discriminate].
    apply startswith_tl_length in Eq.
    destruct (scanstring _ (tl s) []) as [key r1| |] eqn:E; try discriminate.
    apply scanstring_shorter in E.
    pose proof (skip_ws_length r1). pose proof (tl_length (skip_ws r1)).
    pose proof (skip_ws_length (tl (skip_ws r1))).
    destruct (startswith (skip_ws r1) 58); [|discriminate].
    destruct (scan_once fuel _) as [v r3| |] eqn:E3; try discriminate.
    apply IHs in E3.
    pose proof (skip_ws_length r3). pose proof (tl_length (skip_ws r3)).
    pose proof (skip_ws_length (tl (skip_ws r3))).
    destruct (startswith (skip_ws r3) 125); [intros [= _ <-]; lia|].
    destruct (startswith (skip_ws r3) 44); [|discriminate].
    intros H'. apply IHm in H'. lia.
  - intros s acc l r. rewrite elements_eq.
    destruct (scan_once fuel s) as [v r1| |] eqn:E; try discriminate.
    apply IHs in E.
    pose proof (skip_ws_length r1). pose proof (tl_length (skip_ws r1)).
    pose proof (skip_ws_length (tl (skip_ws r1))).
    destruct (startswith (skip_ws r1) 93); [intros [= _ <-]; lia|].
    destruct (startswith (skip_ws r1) 44); [|discriminate].
    intros H'. apply IHe in H'. lia.
Qed.

(** Twice the length of the text, and one more, is budget enough. *)
Lemma scan_total (fuel : nat) :
  (forall s, (2 * length s < fuel)%nat -> scan_once fuel s <> Exhausted)
  /\ (forall s d, (2 * length s + 1 < fuel)%nat -> members fuel s d <> Exhausted)
  /\ (forall s acc, (2 * length s + 1 < fuel)%nat -> elements fuel s acc <> Exhausted).
Proof.
  induction fuel as [|fuel (IHs & IHm & IHe)].
  { repeat split; intros; lia. }
  destruct (scan_shorter fuel) as (Ds & Dm & De).
  repeat split.
  - intros [|c r0] L; [discriminate|]. rewrite scan_once_eq. simpl in L.
    pose proof (skip_ws_length r0) as Lw.
    destruct (c =? 34)%N.
    { pose proof (@scanstring_total (S (length r0)) r0 []) as T.
      destruct (scanstring _ r0 []); simpl; try discriminate.
      exfalso. apply T; [lia|reflexivity]. }
    destruct (c =? 123)%N.
    { destruct (startswith _ 125); [discriminate|].
      pose proof (IHm (skip_ws r0) []) as T.
      destruct (members fuel _ []); simpl; try discriminate.
      exfalso. apply T; [lia|reflexivity]. }
    destruct (c =? 91)%N.
    { destruct (startswith _ 93); [discriminate|].
      pose proof (IHe (skip_ws r0) []) as T.
      destruct (elements fuel _ []); simpl; try discriminate.
      exfalso. apply T; [lia|reflexivity]. }
    destruct (constant c r0) as [[v' r']|]; [discriminate|].
    apply match_number_total.
  - intros s d L. rewrite members_eq.
    destruct (startswith s 34) eqn:Eq; [|discriminate].
    apply startswith_tl_length in Eq.
    pose proof (@scanstring_total (S (length (tl s))) (tl s) []) as T.
    destruct (scanstring _ (tl s) []) as [key r1| |] eqn:E; try discriminate;
      [|exfalso; apply T; [lia|reflexivity]].
    apply scanstring_shorter in E.
    pose proof (skip_ws_length r1). pose proof (tl_length (skip_ws r1)).
    pose proof (skip_ws_length (tl (skip_ws r1))).
    destruct (startswith (skip_ws r1) 58); [|discriminate].
    pose proof (IHs (skip_ws (tl (skip_ws r1)))) as T3.
    destruct (scan_once fuel _) as [v r3| |] eqn:E3; try discriminate;
      [|exfalso; apply T3; [lia|reflexivity]].
    apply Ds in E3.
    pose proof (skip_ws_length r3). pose proof (tl_length (skip_ws r3)).
    pose proof (skip_ws_length (tl (skip_ws r3))).
    destruct (startswith (skip_ws r3) 125); [discriminate|].
    destruct (startswith (skip_ws r3) 44); [|discriminate].
    apply IHm. lia.
  - intros s acc L. rewrite elements_eq.
    pose proof (IHs s) as T.
    destruct (scan_once fuel s) as [v r1| |] eqn:E; try discriminate;
      [|exfalso; apply T; [lia|reflexivity]].
    apply Ds in E.
    pose proof (skip_ws_length r1). pose proof (tl_length (skip_ws r1)).
    pose proof (skip_ws_length (tl (skip_ws r1))).
    destruct (startswith (skip_ws r1) 93); [discriminate|].
    destruct (startswith (skip_ws r1) 44); [|discriminate].
    apply IHe. lia.
Qed.

(** [json.loads] is total: the embedding never stops for lack of budget,
    so [None] always stands for a decode error. *)
Lemma loads_scan_total (s : pystr) : loads_scan s <> Exhausted.
Proof.
  unfold loads_scan. destruct (startswith s 65279); [discriminate|].
  pose proof (proj1 (scan_total (S (2 * length s))) (skip_ws s)) as T.
  pose proof (skip_ws_length s).
  destruct (scan_once _ (skip_ws s)) as [v r| |]; try discriminate.
  - destruct (skip_ws r); discriminate.
  - exfalso. apply T; [lia|reflexivity].
Qed.

Lemma loads_none_invalid (s : pystr) : loads s = None <-> loads_scan s = Invalid.
Proof.
  unfold loads. pose proof (loads_scan_total s).
  destruct (loads_scan s); split; congruence.
Qed.

(** A text that begins with an opening brace decodes, if at all, to an
    object. *)
Lemma loads_object (s : pystr) (v : json) :
  startswith s (ch "{") = true -> loads s = Some v -> exists d, v = JObj d.
Proof.
  intros Hs. apply startswith_true in Hs. destruct Hs as [r ->].
  unfold loads, loads_scan.
  change (startswith (ch "{" :: r) 65279) with false. cbv iota.
  change (skip_ws (ch "{" :: r)) with (ch "{" :: r).
  rewrite scan_once_eq.
  change (ch "{" =? 34)%N with false. change (ch "{" =? 123)%N with true. cbv iota.
  destruct (startswith (skip_ws r) 125).
  - destruct (skip_ws (tl (skip_ws r))); intros [= <-]; eauto.
  - destruct (members _ _ []) as [d r'| |]; simpl; try discriminate.
    destruct (skip_ws r'); intros [= <-]; eauto.
Qed.

End JsonFacts.

(** ** What each stage does to the state *)

Lemma same_files_refl (st : State) : same_files st st.
Proof. split; reflexivity. Qed.

Lemma same_files_trans (a b c : State) :
  same_files a b -> same_files b c -> same_files a c.
Proof. intros [H1 H2] [H3 H4]. split; congruence. Qed.

Lemma same_files_console (line : pystr) (st : State) :
  same_files st (add_console line st).
Proof. split; reflexivity. Qed.

Lemma same_files_trace (ev : pw_event) (st : State) :
  same_files st (add_trace ev st).
Proof. split; reflexivity. Qed.

Create HintDb files.
#[local] Hint Resolve same_files_refl same_files_console same_files_trace : files.

Ltac run :=
  unfold bind, ret, raise, try_except, try_finally, print, append_log,
    pw_record, open_output, write_output; simpl.

Section Runs.

Variable W : World.
Variable U : Unicode.

Lemma parse_with_gemini_run (raw_text : pystr) (url : option pystr) (st : State) :
  parse_with_gemini W raw_text url st =
  (Return (gemini_result W raw_text url),
   match gemini_error W raw_text url with
   | Some e => add_console (gemini_error_line W e) st
   | None => st
   end).
Proof.
  unfold parse_with_gemini, gemini_result, gemini_error, call_generate_content,
    parse_response.
  run. destruct (generate_content W _) as [e|[t|]]; simpl; try reflexivity.
  destruct (Json.loads _); reflexivity.
Qed.

Lemma parse_with_gemini_files (raw_text : pystr) (url : option pystr) (st : State) :
  same_files st (snd (parse_with_gemini W raw_text url st)).
Proof.
  rewrite parse_with_gemini_run. simpl.
  destruct (gemini_error _ _ _); auto with files.
Qed.


Lemma get_page_html_run (url : pystr) (st : State) :
  fst (get_page_html W url st) = fetch W url
  /\ same_files st (snd (get_page_html W url st)).
Proof.
  unfold fetch, get_page_html, with_sync_playwright, pw, page_content.
  destruct (browse W url) as [en la np ro go co cl]. simpl.
  run.
  destruct en, la, np, ro, go, co, cl; simpl; split; try reflexivity;
    split; reflexivity.
Qed.

End Runs.

(** ** The batch runner, lender by lender *)

Section Batch.

Variable W : World.
Variable U : Unicode.

(** One turn of the loop returns, with the verdict's record appended to the
    rows and the verdict's entry to the error log. *)
Lemma scrape_lender_run (as_of : pystr) (rows : list pydict) (lender : Lender)
    (st : State) :
  exists st',
    scrape_lender W U as_of rows lender st
      = (Return (rows ++ records (judge W U as_of lender)), st')
    /\ error_log st' = error_log st ++ entries lender (judge W U as_of lender)
    /\ output_file st' = output_file st.
Proof.
  unfold scrape_lender, judge, exception_reason.
  unfold bind at 1. unfold print at 1. cbv iota beta.
  set (st1 := add_console _ st).
  unfold try_except. unfold bind at 1.
  destruct (get_page_html_run W (url lender) st1) as [Hf [Hl Ho]].
  destruct (get_page_html W (url lender) st1) as [r st2]. simpl in Hf, Hl, Ho.
  rewrite <- Hf. clear Hf.
  destruct r as [[[|c h]|]|e].
  - eexists. split; [run; rewrite ?app_nil_r; reflexivity|].
    split; simpl; congruence.
  - unfold call_soup_get_text.
    destruct (soup_get_text W (c :: h)) as [e|text].
    + eexists. split; [run; rewrite ?app_nil_r; reflexivity|].
      split; simpl; congruence.
    + unfold bind at 1. unfold ret at 1. unfold bind at 1.
      rewrite parse_with_gemini_run.
      destruct (gemini_result W text (Some (url lender))) as [v|].
      * destruct v;
          (eexists; split; [run; rewrite ?app_nil_r; reflexivity|];
           split; simpl;
           destruct (gemini_error W text (Some (url lender))); simpl;
           rewrite ?app_nil_r; congruence).
      * eexists. split; [run; reflexivity|].
        split; simpl;
          destruct (gemini_error W text (Some (url lender))); simpl; congruence.
  - eexists. split; [run; rewrite ?app_nil_r; reflexivity|].
    split; simpl; congruence.
  - eexists. split; [run; rewrite ?app_nil_r; reflexivity|].
    split; simpl; congruence.
Qed.

(** The whole loop: every lender is judged in turn, whatever happened to
    the ones before it. *)
Lemma scrape_loop_run (as_of : pystr) (lenders : list Lender) :
  forall rows st, exists st',
    scrape_loop W U as_of lenders rows st
      = (Return (rows ++ flat_map (fun l => records (judge W U as_of l)) lenders), st')
    /\ error_log st'
       = error_log st ++ flat_map (fun l => entries l (judge W U as_of l)) lenders
    /\ output_file st' = output_file st.
Proof.
  induction lenders as [|l rest IH]; intros rows st.
  - exists st. simpl. rewrite !app_nil_r. auto.
  - simpl scrape_loop. unfold bind.
    destruct (scrape_lender_run as_of rows l st) as (st1 & -> & Hl & Ho).
    destruct (IH (rows ++ records (judge W U as_of l)) st1) as (st2 & -> & Hl2 & Ho2).
    exists st2. simpl flat_map. rewrite !app_assoc.
    repeat split; congruence.
Qed.

End Batch.

(** ** The structured extractor *)

Lemma gemini_result_object (W : World) (raw_text : pystr) (url : option pystr)
    (v : json) :
  gemini_result W raw_text url = Some v -> exists d, v = JObj d.
Proof.
  unfold gemini_result.
  destruct (generate_content W _) as [e|[t|]]; try discriminate.
  destruct (json_str_shape (strip t)) as [E|[E|E]].
  - rewrite E. discriminate.
  - apply JsonFacts.loads_object. exact E.
  - rewrite E. discriminate.
Qed.



(** C4. The structured extractor never raises: a failure of the remote
    call, a response without text, and a decode error of the sliced text
    each print the error and give no result; a decoded value is returned as
    it is, whatever its fields. *)
Theorem extractor_never_raises (W : World) (raw_text : pystr)
    (url : option pystr) (st : State) :
  (exists r st', parse_with_gemini W raw_text url st = (Return r, st'))
  /\ (forall e,
         generate_content W (prompt raw_text url) = inl e ->
         parse_with_gemini W raw_text url st
         = (Return None, add_console (gemini_error_line W e) st))
  /\ (generate_content W (prompt raw_text url) = inr None ->
      parse_with_gemini W raw_text url st
      = (Return None, add_console (gemini_error_line W AttributeError) st))
  /\ (forall t,
         generate_content W (prompt raw_text url) = inr (Some t) ->
         Json.loads (json_str (strip t)) = None ->
         parse_with_gemini W raw_text url st
         = (Return None,
            add_console
              (gemini_error_line W (JSONDecodeError (json_str (strip t)))) st))
  /\ (forall t v,
         generate_content W (prompt raw_text url) = inr (Some t) ->
         Json.loads (json_str (strip t)) = Some v ->
         parse_with_gemini W raw_text url st = (Return (Some v), st)).
Proof.
  rewrite parse_with_gemini_run. unfold gemini_result, gemini_error.
  split; [eauto|].
  split; [intros e ->; reflexivity|].
  split; [intros ->; reflexivity|].
  split.
  - intros t -> ->. reflexivity.
  - intros t v -> ->. reflexivity.
Qed.

Lemma extractor_never_raises_witness :
  parse_with_gemini (answering None) page_text None initial
  = (Return None,
     add_console
       (gemini_error_line (answering None) unavailable)
       initial).
Proof.
  apply (proj1 (proj2 (extractor_never_raises (answering None) page_text None initial))).
  reflexivity.
Defined.

(** The slice of the response [x}] is a lone closing brace: not empty, and
    not begun by an opening brace. *)
Lemma slice_lone_closing_brace :
  json_str (strip (str "x}")) = str "}"
  /\ nonempty (json_str (strip (str "x}"))) = true
  /\ startswith (json_str (strip (str "x}"))) (ch "{") = false.
Proof. vm_compute. auto. Qed.

(** C9 (amended). The structured extractor gives no result or an object,
    never another kind of value: the text it decodes is empty, or begins
    with an opening brace, or is a lone closing brace, which does not
    decode. *)
Theorem extractor_result_is_object (W : World) (raw_text : pystr)
    (url : option pystr) (st : State) :
  (fst (parse_with_gemini W raw_text url st) = Return None
   \/ exists d, fst (parse_with_gemini W raw_text url st) = Return (Some (JObj d)))
  /\ (forall t,
         json_str (strip t) = []
         \/ startswith (json_str (strip t)) (ch "{") = true
         \/ (json_str (strip t) = str "}" /\ Json.loads (json_str (strip t)) = None)).
Proof.
  split.
  - rewrite parse_with_gemini_run. simpl.
    destruct (gemini_result W raw_text url) as [v|] eqn:E; [|auto].
    destruct (gemini_result_object _ _ _ E) as [d ->]. eauto.
  - intros t. destruct (json_str_shape (strip t)) as [E|[E|E]]; auto.
    right. right. rewrite E. split; reflexivity.
Qed.

(** ** Dictionaries and the record normaliser *)

Lemma str_eqb_eq (a b : pystr) : str_eqb a b = true <-> a = b.
Proof.
  revert b. induction a as [|x a IH]; intros [|y b]; simpl;
    try (split; [discriminate|discriminate]); try tauto.
  rewrite andb_true_iff, N.eqb_eq, IH.
  split; [intros [-> ->]; reflexivity|intros [= -> ->]; auto].
Qed.

Lemma str_eqb_refl (a : pystr) : str_eqb a a = true.
Proof. apply str_eqb_eq. reflexivity. Qed.

Lemma dict_get_set_same (d : pydict) (k : pystr) (v : json) :
  dict_get (dict_set d k v) k = Some v.
Proof.
  induction d as [|[k0 v0] r IH]; simpl.
  - rewrite str_eqb_refl. reflexivity.
  - destruct (str_eqb k0 k) eqn:E; simpl; rewrite E; auto.
Qed.

Lemma dict_get_set_other (d : pydict) (k k' : pystr) (v : json) :
  str_eqb k k' = false -> dict_get (dict_set d k v) k' = dict_get d k'.
Proof.
  intros Hk. induction d as [|[k0 v0] r IH]; simpl.
  - rewrite Hk. reflexivity.
  - destruct (str_eqb k0 k) eqn:E; simpl.
    + apply str_eqb_eq in E. subst k0. rewrite Hk. reflexivity.
    + rewrite IH. reflexivity.
Qed.

Lemma normalize_type (as_of : pystr) (lender : Lender) (d : pydict) :
  dict_get (normalize as_of lender d) LenderType = Some (normal_type lender d).
Proof.
  unfold normalize, normal_type, dict_contains.
  set (d1 := dict_set d (str "As-of Date") (JStr as_of)).
  set (d2 := dict_set d1 (str "Lender Name") _).
  assert (E : dict_get d2 (str "Lender Type") = dict_get d LenderType).
  { unfold d2, d1. rewrite !dict_get_set_other by reflexivity. reflexivity. }
  rewrite E. destruct (dict_get d LenderType) as [v|]; simpl.
  - destruct (eq_str v _).
    + exact (dict_get_set_same _ _ _).
    + exact E.
  - exact (dict_get_set_same _ _ _).
Qed.

Lemma normalize_name (as_of : pystr) (lender : Lender) (d : pydict) :
  dict_get (normalize as_of lender d) LenderName = Some (normal_name lender d).
Proof.
  unfold normalize, normal_name.
  set (d1 := dict_set d (str "As-of Date") (JStr as_of)).
  assert (E : dict_get d1 (str "Lender Name") = dict_get d LenderName).
  { unfold d1. rewrite dict_get_set_other by reflexivity. reflexivity. }
  rewrite E.
  set (d2 := dict_set d1 (str "Lender Name") _).
  assert (E2 : dict_get d2 LenderName = Some (normal_name lender d)).
  { unfold d2. apply dict_get_set_same. }
  destruct (_ || _); [|exact E2].
  rewrite dict_get_set_other by reflexivity. exact E2.
Qed.

Lemma normalize_as_of (as_of : pystr) (lender : Lender) (d : pydict) :
  dict_get (normalize as_of lender d) AsOfDate = Some (JStr as_of).
Proof.
  unfold normalize.
  set (d1 := dict_set d (str "As-of Date") (JStr as_of)).
  set (d2 := dict_set d1 (str "Lender Name") _).
  assert (E2 : dict_get d2 AsOfDate = Some (JStr as_of)).
  { unfold d2. rewrite dict_get_set_other by reflexivity. apply dict_get_set_same. }
  destruct (_ || _); [|exact E2].
  rewrite dict_get_set_other by reflexivity. exact E2.
Qed.

(** Every record a verdict holds is a normalised dictionary. *)
Lemma judge_normalized (W : World) (U : Unicode) (as_of : pystr)
    (lender : Lender) (r : pydict) :
  In r (records (judge W U as_of lender)) ->
  exists d, r = normalize as_of lender d.
Proof.
  unfold judge.
  destruct (fetch W (url lender)) as [[[|c h]|]|e]; simpl; try tauto.
  destruct (soup_get_text W (c :: h)) as [e|text]; simpl; try tauto.
  destruct (gemini_result W text (Some (url lender))) as [[]|]; simpl; try tauto;
    intros [<-|[]]; eauto.
Qed.

Lemma scrape_over_rows (W : World) (U : Unicode) (lenders : list Lender)
    (st : State) :
  exists st',
    scrape_over W U lenders st
    = (Return (flat_map (fun l => records (judge W U (today W) l)) lenders), st')
    /\ error_log st'
       = error_log st
         ++ flat_map (fun l => entries l (judge W U (today W) l)) lenders
    /\ output_file st' = output_file st.
Proof.
  unfold scrape_over.
  destruct (scrape_loop_run W U (today W) lenders [] st) as (st' & E & H).
  exists st'. split; [exact E|exact H].
Qed.

(** ** Lines of the error log *)

Lemma no_linebreak_app (a b : pystr) :
  no_linebreak (a ++ b) = no_linebreak a && no_linebreak b.
Proof. apply forallb_app. Qed.


Lemma count_lines_single (a : pystr) :
  no_linebreak a = true -> count_lines (a ++ nl) = 1%nat.
Proof.
  induction a as [|c a IH]; intros H.
  - reflexivity.
  - simpl in H. apply andb_true_iff in H. destruct H as [Hc Ha].
    apply negb_true_iff, orb_false_iff in Hc. destruct Hc as [H10 H13].
    simpl. rewrite H13, H10. simpl.
    destruct (a ++ nl) eqn:E.
    + destruct a; discriminate.
    + exact (IH Ha).
Qed.

(** An entry of the error log is one line when its parts hold no line
    break. *)
Lemma log_line_single (lender : Lender) (reason : pystr) :
  no_linebreak (name lender) = true -> no_linebreak (url lender) = true ->
  no_linebreak reason = true ->
  count_lines (log_line lender reason) = 1%nat.
Proof.
  intros Hn Hu Hr. unfold log_line.
  rewrite !app_assoc. apply count_lines_single.
  rewrite !no_linebreak_app, Hn, Hu, Hr. reflexivity.
Qed.

(** ** The batch runner: records and failures *)

Section Verdicts.

Variable W : World.
Variable U : Unicode.

Lemma judge_reduced (as_of : pystr) (lender : Lender) (html text : pystr) :
  fetch W (url lender) = Return (Some html) -> html <> [] ->
  soup_get_text W html = inr text ->
  judge W U as_of lender
  = match gemini_result W text (Some (url lender)) with
    | Some (JObj d) => Collected (normalize as_of lender d) false
    | Some _ => Dropped (exception_reason W TypeError)
    | None =>
        Collected (normalize as_of lender
                     (fallback_record (products U text) lender as_of)) true
    end.
Proof.
  intros Hf Hh Hs. unfold judge. rewrite Hf.
  destruct html as [|c h]; [congruence|]. rewrite Hs. reflexivity.
Qed.

Lemma judge_no_html (as_of : pystr) (lender : Lender) :
  fetch W (url lender) = Return None \/ fetch W (url lender) = Return (Some []) ->
  judge W U as_of lender = Dropped (str "No HTML returned").
Proof. unfold judge. intros [-> | ->]; reflexivity. Qed.

Lemma judge_exception (as_of : pystr) (lender : Lender) (e : exn) :
  fetch W (url lender) = Raise e
  \/ (exists html, html <> [] /\ fetch W (url lender) = Return (Some html)
                   /\ soup_get_text W html = inl e) ->
  judge W U as_of lender = Dropped (exception_reason W e).
Proof.
  unfold judge. intros [-> | (html & Hh & -> & Hs)]; [reflexivity|].
  destruct html as [|c h]; [congruence|]. rewrite Hs. reflexivity.
Qed.

End Verdicts.

(** With a world in which the text reducer raises, and with one in which
    the page loads with empty markup, the fetcher returns markup and the
    lender yields no record. *)
Lemma fetched_lender_without_record :
  (fetch soup_fails (url street) = Return (Some markup)
   /\ returned (scrape_over soup_fails ascii_unicode [street] initial) = [])
  /\ (fetch empty_markup (url street) = Return (Some [])
      /\ returned (scrape_over empty_markup ascii_unicode [street] initial) = []).
Proof. vm_compute. auto. Qed.

(** C2 (amended). A lender whose fetch returns markup that is not empty,
    and whose page text is reduced without an exception, has exactly one
    record appended: the normalised object of the model when there is one,
    the normalised fallback record otherwise; its "As-of Date" is the date
    of the run, as it is for every record of a run. *)
Theorem fetched_lender_one_record (W : World) (U : Unicode) (as_of : pystr)
    (rows : list pydict) (lender : Lender) (st : State) (html text : pystr) :
  fetch W (url lender) = Return (Some html) -> html <> [] ->
  soup_get_text W html = inr text ->
  (exists d st',
      scrape_lender W U as_of rows lender st
      = (Return (rows ++ [normalize as_of lender d]), st')
      /\ (fst (parse_with_gemini W text (Some (url lender)) st) = Return (Some (JObj d))
          \/ (fst (parse_with_gemini W text (Some (url lender)) st) = Return None
              /\ d = fallback_record (products U text) lender as_of))
      /\ dict_get (normalize as_of lender d) AsOfDate = Some (JStr as_of))
  /\ (forall lenders st0, exists all st',
         scrape_over W U lenders st0 = (Return all, st')
         /\ forall r, In r all -> dict_get r AsOfDate = Some (JStr (today W))).
Proof.
  intros Hf Hh Hs. split.
  - destruct (scrape_lender_run W U as_of rows lender st) as (st' & E & _).
    rewrite (judge_reduced W U as_of lender Hf Hh Hs) in E.
    rewrite parse_with_gemini_run. simpl fst.
    destruct (gemini_result W text (Some (url lender))) as [v|] eqn:G.
    + destruct (gemini_result_object _ _ _ G) as [d ->].
      exists d, st'. split; [exact E|]. split; [auto|apply normalize_as_of].
    + eexists _, st'. split; [exact E|]. split; [auto|apply normalize_as_of].
  - intros lenders st0.
    destruct (scrape_over_rows W U lenders st0) as (st' & E & _).
    eexists _, st'. split; [exact E|].
    intros r Hr. apply in_flat_map in Hr. destruct Hr as (l & _ & Hr).
    apply judge_normalized in Hr. destruct Hr as [d ->].
    apply normalize_as_of.
Qed.

Lemma fetched_lender_one_record_witness :
  exists d st',
    scrape_lender (answering (Some sure_response)) ascii_unicode
                  (str "2025-01-01") [] street initial
    = (Return ([] ++ [normalize (str "2025-01-01") street d]), st')
    /\ dict_get (normalize (str "2025-01-01") street d) AsOfDate
       = Some (JStr (str "2025-01-01")).
Proof.
  destruct (@fetched_lender_one_record (answering (Some sure_response))
              ascii_unicode (str "2025-01-01") [] street initial markup page_text)
    as [(d & st' & E & _ & D) _].
  - reflexivity.
  - discriminate.
  - reflexivity.
  - exists d, st'. split; [exact E|exact D].
Defined.



(** When the browser cannot be launched and the exception's message has
    two lines, the entry written for the lender has two lines. *)
Lemma exception_entry_two_lines :
  map count_lines
      (error_log (snd (scrape_over launch_fails ascii_unicode [street] initial)))
  = [2%nat]
  /\ returned (scrape_over launch_fails ascii_unicode [street] initial) = [].
Proof. vm_compute. auto. Qed.

(** C8 (amended). A turn of the loop always returns. A fetch failure
    appends no record and one entry, the lender's name, URL and the reason
    "No HTML returned" joined by " | " and ended by a line feed; an
    exception of the turn appends no record and one such entry whose reason
    is "Exception: " and the exception's message. The entry is one line when
    name, URL and reason hold no line break. The loop goes through the
    whole list: its rows and log entries are those of every lender's
    verdict, in order. *)
Theorem failure_is_isolated (W : World) (U : Unicode) (as_of : pystr)
    (rows : list pydict) (lender : Lender) (st : State) :
  (exists rows' st', scrape_lender W U as_of rows lender st = (Return rows', st'))
  /\ (fetch W (url lender) = Return None
      \/ fetch W (url lender) = Return (Some []) ->
      exists st',
        scrape_lender W U as_of rows lender st = (Return rows, st')
        /\ error_log st'
           = error_log st ++ [log_line lender (str "No HTML returned")])
  /\ (forall e,
         fetch W (url lender) = Raise e
         \/ (exists html, html <> [] /\ fetch W (url lender) = Return (Some html)
                          /\ soup_get_text W html = inl e) ->
         exists st',
           scrape_lender W U as_of rows lender st = (Return rows, st')
           /\ error_log st'
              = error_log st
                ++ [log_line lender (str "Exception: " ++ str_exn W e)])
  /\ (forall reason,
         no_linebreak (name lender) = true -> no_linebreak (url lender) = true ->
         no_linebreak reason = true ->
         log_line lender reason
         = name lender ++ str " | " ++ url lender ++ str " | " ++ reason ++ nl
         /\ count_lines (log_line lender reason) = 1%nat)
  /\ (forall lenders st0, exists st',
         scrape_over W U lenders st0
         = (Return (flat_map (fun l => records (judge W U (today W) l)) lenders), st')
         /\ error_log st'
            = error_log st0
              ++ flat_map (fun l => entries l (judge W U (today W) l)) lenders).
Proof.
  destruct (scrape_lender_run W U as_of rows lender st) as (st' & E & L & _).
  split; [eauto|]. split; [|split; [|split]].
  - intros H. rewrite (judge_no_html W U as_of lender H) in E, L.
    simpl in E, L. rewrite app_nil_r in E. eauto.
  - intros e H. rewrite (judge_exception W U as_of lender H) in E, L.
    simpl in E, L. rewrite app_nil_r in E. eauto.
  - intros reason Hn Hu Hr. split; [reflexivity|].
    apply log_line_single; assumption.
  - intros lenders st0.
    destruct (scrape_over_rows W U lenders st0) as (st1 & E1 & L1 & _). eauto.
Qed.

Lemma failure_is_isolated_witness :
  exists st',
    scrape_lender goto_times_out ascii_unicode (str "2025-01-01") [] street initial
    = (Return [], st')
    /\ error_log st'
       = error_log initial ++ [log_line street (str "No HTML returned")].
Proof.
  apply (proj1 (proj2 (failure_is_isolated goto_times_out ascii_unicode
                         (str "2025-01-01") [] street initial))).
  left. reflexivity.
Defined.

(** C10. When the structured extractor gives no result for a lender whose
    page was fetched and reduced, the turn appends the normalised fallback
    record and one entry to the error log, with the reason "Gemini failed,
    used fallback"; the entry is one line when the lender's name and URL
    hold no line break. So an entry of the log for a lender does not mean
    the lender has no record. *)
Theorem fallback_is_logged (W : World) (U : Unicode) (as_of : pystr)
    (rows : list pydict) (lender : Lender) (st : State) (html text : pystr) :
  fetch W (url lender) = Return (Some html) -> html <> [] ->
  soup_get_text W html = inr text ->
  fst (parse_with_gemini W text (Some (url lender)) initial) = Return None ->
  exists st',
    scrape_lender W U as_of rows lender st
    = (Return (rows ++ [normalize as_of lender
                          (fallback_record (products U text) lender as_of)]), st')
    /\ error_log st'
       = error_log st ++ [log_line lender (str "Gemini failed, used fallback")]
    /\ (no_linebreak (name lender) = true -> no_linebreak (url lender) = true ->
        count_lines (log_line lender (str "Gemini failed, used fallback")) = 1%nat)
    /\ (In lender LENDERS ->
        count_lines (log_line lender (str "Gemini failed, used fallback")) = 1%nat).
Proof.
  intros Hf Hh Hs Hg.
  rewrite parse_with_gemini_run in Hg. simpl in Hg. injection Hg as Hg.
  destruct (scrape_lender_run W U as_of rows lender st) as (st' & E & L & _).
  rewrite (judge_reduced W U as_of lender Hf Hh Hs), Hg in E, L.
  exists st'. split; [exact E|]. split; [exact L|].
  split.
  - intros Hn Hu. apply log_line_single; auto.
  - intros Hl.
    assert (A : forallb (fun l => no_linebreak (name l) && no_linebreak (url l))
                        LENDERS = true) by reflexivity.
    rewrite forallb_forall in A. specialize (A lender Hl).
    apply andb_true_iff in A. destruct A as [An Au].
    apply log_line_single; auto.
Qed.

Lemma fallback_is_logged_witness :
  exists st',
    scrape_lender (answering None) ascii_unicode (str "2025-01-01") [] street initial
    = (Return ([] ++ [normalize (str "2025-01-01") street
                        (fallback_record (products ascii_unicode page_text) street
                                         (str "2025-01-01"))]), st')
    /\ error_log st'
       = error_log initial ++ [log_line street (str "Gemini failed, used fallback")]
    /\ count_lines (log_line street (str "Gemini failed, used fallback")) = 1%nat.
Proof.
  destruct (@fallback_is_logged (answering None) ascii_unicode (str "2025-01-01")
              [] street initial markup page_text) as (st' & E & L & C & _).
  - reflexivity.
  - discriminate.
  - reflexivity.
  - reflexivity.
  - exists st'. split; [exact E|]. split; [exact L|]. apply C; reflexivity.
Defined.

(** ** The page fetcher *)

(** With the navigation timing out and [browser.close()] raising in the
    [finally] clause, the fetcher raises the exception of the closing
    call. *)
Lemma closing_exception_escapes :
  on_goto (browse close_fails (url street))
  = Some (ExternalError (str "Timeout 30000ms exceeded."))
  /\ fst (get_page_html close_fails (url street) initial)
     = Raise (ExternalError (str "Connection closed")).
Proof. vm_compute. auto. Qed.

(** C6 (amended). When the page was opened and routing, navigation or
    reading the content raises, the fetcher returns [None] instead of
    raising, provided the closing call returns; an exception of the closing
    call leaves the fetcher as an exception. On every path, the browser the
    fetch launched is not running when the fetch ends: [browser.close()] is
    called whenever the page was opened, and the [sync_playwright] block is
    left whenever it was entered. *)
Theorem fetcher_sentinel_and_release (W : World) (url : pystr) (st : State) :
  (fetch_fails (browse W url) -> on_close (browse W url) = None ->
   fst (get_page_html W url st) = Return None)
  /\ (forall e,
         on_enter (browse W url) = None -> on_launch (browse W url) = None ->
         on_new_page (browse W url) = None -> on_close (browse W url) = Some e ->
         fst (get_page_html W url st) = Raise e)
  /\ (exists evs,
         pw_trace (snd (get_page_html W url st)) = pw_trace st ++ evs
         /\ browser_open evs = false
         /\ (returned_from PwNewPage evs = true -> called PwClose evs = true)
         /\ (returned_from PwEnter evs = true -> called PwExit evs = true)).
Proof.
  unfold fetch_fails, get_page_html, with_sync_playwright, pw, page_content.
  destruct (browse W url) as [en la np ro go co cl]. simpl.
  split; [|split].
  - intros (-> & -> & -> & H) ->. run.
    destruct ro, go, co; simpl; try reflexivity.
    destruct H as [H|[H|[e H]]]; congruence.
  - intros e -> -> -> ->. run. destruct ro, go, co; reflexivity.
  - run.
    destruct en, la, np, ro, go, co, cl; simpl;
      (eexists; split;
       [rewrite <- ?app_assoc; simpl; reflexivity
       | split; [reflexivity|split; intros H; first [exact H|reflexivity|discriminate H]]]).
Qed.

Lemma fetcher_sentinel_and_release_witness :
  fst (get_page_html goto_times_out (url street) initial) = Return None.
Proof.
  apply (proj1 (fetcher_sentinel_and_release goto_times_out (url street) initial)).
  - unfold fetch_fails. simpl. repeat split.
    right. left. discriminate.
  - reflexivity.
Defined.

(** ** The CSV writer *)

Section CsvFacts.

Variable W : World.

Lemma mem_in (k : pystr) (keys : list pystr) : In k keys -> mem k keys = true.
Proof.
  intros H. unfold mem. apply existsb_exists. exists k.
  split; [exact H|apply str_eqb_refl].
Qed.

Lemma fits_self (d : pydict) : fits (dict_keys d) d.
Proof. intros k. apply mem_in. Qed.

Lemma dict_to_list_fits (keys : list pystr) (rowdict : pydict) (st : State) :
  fits keys rowdict ->
  dict_to_list W keys rowdict st = (Return (row_cells W keys rowdict), st).
Proof.
  intros H. unfold dict_to_list.
  assert (E : filter (fun k => negb (mem k keys)) (dict_keys rowdict) = []).
  { unfold fits in H. revert H. generalize (dict_keys rowdict).
    intros ks. induction ks as [|k ks IH]; intros H; [reflexivity|].
    simpl. rewrite (H k) by (left; reflexivity). simpl.
    apply IH. intros k' Hk'. apply H. right. exact Hk'. }
  rewrite E. reflexivity.
Qed.

Lemma writerows_fits (keys : list pystr) (rows : list pydict) :
  forall st c,
    output_file st = Some c ->
    Forall (fits keys) rows ->
    exists st',
      writerows W keys rows st = (Return tt, st')
      /\ output_file st' = Some (c ++ concat (map csv_line (map (row_cells W keys) rows)))
      /\ console st' = console st /\ error_log st' = error_log st.
Proof.
  induction rows as [|r rest IH]; intros st c Hc Hf.
  - exists st. simpl. rewrite app_nil_r. auto.
  - inversion Hf as [|? ? Hr Hrest]; subst.
    simpl writerows. unfold bind.
    rewrite (dict_to_list_fits st Hr).
    unfold write_output at 1. cbv iota beta. rewrite Hc.
    set (st1 := set_output _ st).
    destruct (IH st1 (c ++ csv_line (row_cells W keys r)) eq_refl Hrest)
      as (st' & E & Ho & Hcon & Hlog).
    exists st'. split; [exact E|]. simpl concat. rewrite app_assoc.
    auto.
Qed.





End CsvFacts.


(** A record with a key the first record lacks makes the writer raise
    after the header and the first record are written. *)
Lemma extra_key_raises :
  fst (write_csv (answering None)
         [[(str "a", JStr (str "1"))]; [(str "b", JStr (str "2"))]] initial)
  = Raise (ValueError [str "b"])
  /\ output_file (snd (write_csv (answering None)
         [[(str "a", JStr (str "1"))]; [(str "b", JStr (str "2"))]] initial))
     = Some (str "a" ++ [13%N; 10%N] ++ str "1" ++ [13%N; 10%N]).
Proof. vm_compute. auto. Qed.



(** ** The fallback extractor *)

Section SearchFacts.

Variable U : Unicode.






End SearchFacts.

(** *** On ASCII text only the ASCII part of the tables matters *)

Section AsciiText.

Variable U : Unicode.
Hypothesis agree : agrees_on_ascii U.

Lemma boundary_ascii (a b : option N) :
  ascii_opt a = true -> ascii_opt b = true ->
  boundary U a b = boundary ascii_unicode a b.
Proof.
  destruct agree as [_ Hw]. unfold boundary, is_word.
  destruct a as [a|], b as [b|]; simpl; intros Ha Hb;
    rewrite ?(Hw a Ha), ?(Hw b Hb); reflexivity.
Qed.

Lemma hd_error_ascii (s : pystr) : is_ascii s = true -> ascii_opt (hd_error s) = true.
Proof. destruct s; simpl; [reflexivity|]. intros H. apply andb_true_iff in H. tauto. Qed.

Lemma match_literal_ascii (keyword : pystr) :
  forall text last,
    is_ascii keyword = true -> is_ascii text = true -> ascii_opt last = true ->
    match_literal U keyword text last = match_literal ascii_unicode keyword text last
    /\ forall last' rest,
         match_literal ascii_unicode keyword text last = Some (last', rest) ->
         ascii_opt last' = true /\ is_ascii rest = true.
Proof.
  destruct agree as [Hi _].
  induction keyword as [|p kw IH]; intros text last Hk Ht Hl; simpl.
  - split; [reflexivity|]. intros last' rest [= <- <-]. auto.
  - simpl in Hk. apply andb_true_iff in Hk. destruct Hk as [Hp Hk].
    destruct text as [|c text']; [split; [reflexivity|discriminate]|].
    simpl in Ht. apply andb_true_iff in Ht. destruct Ht as [Hc Ht].
    rewrite (Hi p c Hp Hc). simpl.
    destruct (ascii_ieq p c); [|split; [reflexivity|discriminate]].
    apply IH; assumption.
Qed.

Lemma search_from_ascii (keyword : pystr) :
  is_ascii keyword = true ->
  forall text prev,
    is_ascii text = true -> ascii_opt prev = true ->
    search_from U keyword prev text = search_from ascii_unicode keyword prev text.
Proof.
  intros Hk.
  assert (Here : forall text prev,
             is_ascii text = true -> ascii_opt prev = true ->
             match_here U keyword prev text
             = match_here ascii_unicode keyword prev text).
  { intros text prev Ht Hp. unfold match_here.
    rewrite (boundary_ascii _ _ Hp (hd_error_ascii _ Ht)).
    destruct (match_literal_ascii keyword text prev Hk Ht Hp) as [-> Hr].
    destruct (match_literal ascii_unicode keyword text prev) as [[last rest]|];
      [|reflexivity].
    destruct (Hr last rest eq_refl) as [Hl Hrest].
    rewrite (boundary_ascii _ _ Hl (hd_error_ascii _ Hrest)). reflexivity. }
  induction text as [|c r IH]; intros prev Ht Hp; simpl.
  - rewrite Here by assumption. reflexivity.
  - rewrite Here by assumption.
    simpl in Ht. apply andb_true_iff in Ht. destruct Ht as [Hc Hr].
    rewrite IH by assumption. reflexivity.
Qed.

(** On ASCII text the products are those found with the ASCII tables. *)
Lemma products_ascii (text : pystr) :
  is_ascii text = true -> products U text = products ascii_unicode text.
Proof.
  intros Ht. unfold products. f_equal. apply filter_ext_in.
  intros [c kws] Hin. simpl.
  assert (Hk : forallb is_ascii kws = true).
  { assert (A : forallb (fun pk => forallb is_ascii (snd pk)) product_keywords = true)
      by reflexivity.
    rewrite forallb_forall in A. exact (A _ Hin). }
  clear Hin. induction kws as [|k kws IH]; [reflexivity|].
  simpl in Hk. apply andb_true_iff in Hk. destruct Hk as [Hk Hks].
  simpl. unfold re_search at 1 3.
  rewrite (@search_from_ascii k Hk text None Ht eq_refl), (IH Hks). reflexivity.
Qed.

End AsciiText.

(** *** The record of the fallback extractor *)




(** ** Further properties *)


(** X2. With the lender list of the program, every record of a run has a
    lender name that is present and true, a lender type that is present and
    is not "N/A", and the date of the run. *)
Theorem scrape_records_named_and_dated (W : World) (U : Unicode) (st : State) :
  exists rows st',
    scrape W U st = (Return rows, st')
    /\ forall r, In r rows ->
         (exists v, dict_get r LenderName = Some v /\ truthy v = true)
         /\ (exists v, dict_get r LenderType = Some v
                       /\ eq_str v (str "N/A") = false)
         /\ dict_get r AsOfDate = Some (JStr (today W)).
Proof.
  unfold scrape.
  destruct (scrape_over_rows W U LENDERS st) as (st' & E & _).
  eexists _, st'. split; [exact E|].
  intros r Hr. apply in_flat_map in Hr. destruct Hr as (l & Hl & Hr).
  apply judge_normalized in Hr. destruct Hr as [d ->].
  assert (A : forallb (fun l => nonempty (name l)
                                && negb (str_eqb (type l) (str "N/A"))) LENDERS
              = true) by reflexivity.
  rewrite forallb_forall in A. specialize (A l Hl).
  apply andb_true_iff in A. destruct A as [An At]. apply negb_true_iff in At.
  split; [|split; [|apply normalize_as_of]].
  - rewrite normalize_name. eexists. split; [reflexivity|].
    unfold normal_name. destruct (dict_get d LenderName) as [v|]; [|exact An].
    destruct (truthy v) eqn:T; [exact T|exact An].
  - rewrite normalize_type. eexists. split; [reflexivity|].
    unfold normal_type. destruct (dict_get d LenderType) as [v|]; [|exact At].
    destruct (eq_str v (str "N/A")) eqn:T; [exact At|exact T].
Qed.



(** ** The page fetcher: every outcome *)

(** X4. The fetcher returns markup exactly when every call into the browser
    library returns; it returns [None] exactly when the page was opened, a
    call of the [try] block raises and the closing call returns; and it
    raises exactly the exception of entering the block, of the launch, of
    opening the page, or of the closing call. *)
Theorem fetch_outcomes (W : World) (url : pystr) (st : State) :
  (forall html,
      fst (get_page_html W url st) = Return (Some html)
      <-> on_enter (browse W url) = None /\ on_launch (browse W url) = None
          /\ on_new_page (browse W url) = None /\ on_route (browse W url) = None
          /\ on_goto (browse W url) = None /\ on_content (browse W url) = inr html
          /\ on_close (browse W url) = None)
  /\ (fst (get_page_html W url st) = Return None
      <-> fetch_fails (browse W url) /\ on_close (browse W url) = None)
  /\ (forall e,
         fst (get_page_html W url st) = Raise e
         <-> on_enter (browse W url) = Some e
             \/ (on_enter (browse W url) = None /\ on_launch (browse W url) = Some e)
             \/ (on_enter (browse W url) = None /\ on_launch (browse W url) = None
                 /\ on_new_page (browse W url) = Some e)
             \/ (on_enter (browse W url) = None /\ on_launch (browse W url) = None
                 /\ on_new_page (browse W url) = None
                 /\ on_close (browse W url) = Some e)).
Proof.
  unfold fetch_fails, get_page_html, with_sync_playwright, pw, page_content.
  destruct (browse W url) as [en la np ro go co cl]. simpl. run.
  split; [|split].
  - intros html.
    destruct en, la, np, ro, go, co, cl; simpl;
      (split; [intros H; try discriminate H; injection H as ->; repeat split
              |intros (? & ? & ? & ? & ? & ? & ?); congruence]).
  - destruct en, la, np, ro, go, co, cl; simpl;
      (split;
       [intros H; try discriminate H;
        repeat split; eauto;
        first [left; discriminate|right; left; discriminate|right; right; eauto]
       |intros ((? & ? & ? & [H|[H|[e' H]]]) & ?); congruence]).
  - intros e0.
    destruct en, la, np, ro, go, co, cl; simpl;
      (split;
       [intros H; try discriminate H; injection H as ->; auto 10
       |intros [H|[(? & H)|[(? & ? & H)|(? & ? & ? & H)]]]; congruence]).
Qed.

(** ** The prompt *)

Lemma slice_prefix_length (s : pystr) (n : Z) :
  (0 <= n)%Z -> (Z.of_nat (length (slice s 0 n)) <= n)%Z.
Proof.
  intros H. unfold slice, clamp. change (0 <? 0)%Z with false. cbv iota.
  rewrite length_firstn.
  destruct (n <? 0)%Z eqn:E; [apply Z.ltb_lt in E; lia|]. lia.
Qed.

Lemma slice_prefix_exact (t x : pystr) (n : Z) :
  Z.of_nat (length t) = n -> slice (t ++ x) 0 n = t.
Proof.
  intros L. unfold slice, clamp. change (0 <? 0)%Z with false. cbv iota.
  destruct (n <? 0)%Z eqn:E; [apply Z.ltb_lt in E; lia|].
  rewrite length_app.
  replace (Z.to_nat (Z.min 0 (Z.of_nat (length t + length x)))) with 0%nat by lia.
  replace (Z.to_nat (Z.min n (Z.of_nat (length t + length x))
                     - Z.min 0 (Z.of_nat (length t + length x))))
    with (length t) by lia.
  simpl skipn. rewrite firstn_app, Nat.sub_diag, firstn_all. simpl.
  apply app_nil_r.
Qed.

Lemma prompt_length (raw_text : pystr) (url : option pystr) :
  length (prompt raw_text url)
  = (928 + length (slice (strip raw_text) 0 10000)
     + length (match url with
               | Some u => if nonempty u then u else str "N/A"
               | None => str "N/A"
               end))%nat.
Proof.
  unfold prompt. cbn [join str nl quote3 app].
  repeat (rewrite ?length_app; cbn [length app]).
  lia.
Qed.

(** X5. The prompt holds at most 10000 characters of the page text, so its
    length is bounded whatever the page; two pages whose stripped texts
    share their first 10000 characters give the same prompt and so the same
    extraction; and an empty URL is presented like a missing one. *)
Theorem prompt_is_bounded (W : World) (raw_text : pystr) (url : option pystr)
    (st : State) :
  (Z.of_nat (length (prompt raw_text url))
   <= 10931 + match url with Some u => Z.of_nat (length u) | None => 0 end)%Z
  /\ (forall other head tail tail',
         Z.of_nat (length head) = 10000%Z ->
         strip raw_text = head ++ tail -> strip other = head ++ tail' ->
         prompt raw_text url = prompt other url
         /\ parse_with_gemini W raw_text url st = parse_with_gemini W other url st)
  /\ prompt raw_text (Some []) = prompt raw_text None.
Proof.
  split; [|split].
  - rewrite prompt_length.
    pose proof (@slice_prefix_length (strip raw_text) 10000 ltac:(lia)) as B.
    destruct url as [[|c u]|]; simpl length in *; lia.
  - intros other head tail tail' L E1 E2.
    assert (P : prompt raw_text url = prompt other url).
    { unfold prompt. rewrite E1, E2.
      rewrite !(@slice_prefix_exact head _ 10000 L). reflexivity. }
    split; [exact P|].
    unfold parse_with_gemini. rewrite P. reflexivity.
  - reflexivity.
Qed.

(** ** Commentary around the object *)

Lemma first_at_after (pre rest : pystr) (c : N) :
  ~ In c pre -> first_at (pre ++ c :: rest) c (length pre).
Proof.
  intros H. split.
  - rewrite nth_error_app2, Nat.sub_diag by lia. reflexivity.
  - intros k Hk E. rewrite nth_error_app1 in E by exact Hk.
    apply H. exact (nth_error_In _ _ E).
Qed.

Lemma last_at_before (front post : pystr) (c : N) :
  ~ In c post -> last_at (front ++ c :: post) c (length front).
Proof.
  intros H. split.
  - rewrite nth_error_app2, Nat.sub_diag by lia. reflexivity.
  - intros k Hk E. rewrite nth_error_app2 in E by lia.
    destruct (k - length front)%nat as [|m] eqn:D; [lia|].
    simpl in E. apply H. exact (nth_error_In _ _ E).
Qed.

(** X6. Commentary before the object is cut off together with commentary after
    it, as long as the first holds no opening brace and the second no
    closing brace; but when the stripped response begins with the object,
    nothing is cut off and commentary after it reaches the decoder. *)
Theorem commentary_is_cut (pre body post : pystr) :
  (pre <> [] -> ~ In (ch "{") pre -> ~ In (ch "}") post ->
   json_str (pre ++ [ch "{"] ++ body ++ [ch "}"] ++ post)
   = [ch "{"] ++ body ++ [ch "}"])
  /\ json_str ([ch "{"] ++ body ++ [ch "}"] ++ post)
     = [ch "{"] ++ body ++ [ch "}"] ++ post.
Proof.
  split; [|reflexivity].
  intros Hne Hpre Hpost.
  assert (Hs : startswith (pre ++ [ch "{"] ++ body ++ [ch "}"] ++ post) (ch "{") = false).
  { destruct pre as [|c pre']; [congruence|]. simpl.
    apply N.eqb_neq. intros ->. apply Hpre. left. reflexivity. }
  pose proof (@first_at_after pre (body ++ [ch "}"] ++ post) (ch "{") Hpre) as F.
  pose proof (@last_at_before (pre ++ [ch "{"] ++ body) post (ch "}") Hpost) as L.
  replace ((pre ++ [ch "{"] ++ body) ++ ch "}" :: post)
    with (pre ++ [ch "{"] ++ body ++ [ch "}"] ++ post) in L
    by (rewrite <- !app_assoc; reflexivity).
  rewrite (json_str_between Hs F L).
  assert (T : pre ++ [ch "{"] ++ body ++ [ch "}"] ++ post
              = pre ++ (ch "{" :: body ++ [ch "}"]) ++ post)
    by (simpl; rewrite <- app_assoc; reflexivity).
  assert (N : (length (pre ++ [ch "{"] ++ body) + 1 - length pre)%nat
              = length (ch "{" :: body ++ [ch "}"]))
    by (simpl; rewrite !length_app; simpl; lia).
  rewrite N, T.
  change ([ch "{"] ++ body ++ [ch "}"]) with (ch "{" :: body ++ [ch "}"]).
  generalize (ch "{" :: body ++ [ch "}"]). intros obj.
  rewrite skipn_app, Nat.sub_diag, skipn_all. simpl.
  rewrite firstn_app, Nat.sub_diag, firstn_all. simpl. apply app_nil_r.
Qed.

Lemma commentary_is_cut_witness :
  json_str (str "Sure! " ++ [ch "{"] ++ str "1" ++ [ch "}"] ++ str " Done.")
  = [ch "{"] ++ str "1" ++ [ch "}"].
Proof.
  apply (proj1 (commentary_is_cut (str "Sure! ") (str "1") (str " Done."))).
  - discriminate.
  - simpl. intuition discriminate.
  - simpl. intuition discriminate.
Defined.

(** ** The shape of what the decoder accepts *)

Module JsonShape.
Import Json.

Lemma suffix_refl (s : pystr) : suffix s s.
Proof. exists []. reflexivity. Qed.

Lemma suffix_trans (a b c : pystr) : suffix a b -> suffix b c -> suffix a c.
Proof. intros [p ->] [q ->]. exists (q ++ p). apply app_assoc. Qed.

Lemma suffix_cons (r s : pystr) (c : N) : suffix r s -> suffix r (c :: s).
Proof. intros [p ->]. exists (c :: p). reflexivity. Qed.

Lemma suffix_tl (s : pystr) : suffix (tl s) s.
Proof. destruct s as [|c r]; [apply suffix_refl|apply suffix_cons, suffix_refl]. Qed.

Lemma suffix_skip_ws (s : pystr) : suffix (skip_ws s) s.
Proof.
  induction s as [|c r IH]; simpl; [apply suffix_refl|].
  destruct (is_ws c); [apply suffix_cons, IH|apply suffix_refl].
Qed.

Lemma suffix_head (r : pystr) (c : N) : startswith r c = true -> suffix (c :: tl r) r.
Proof. intros H. apply startswith_true in H. destruct H as [x ->]. apply suffix_refl. Qed.

Ltac sfx :=
  repeat first
    [ assumption
    | apply suffix_refl
    | apply suffix_cons
    | match goal with
      | H : suffix ?a ?b |- suffix ?a ?c => apply (suffix_trans H)
      end
    | apply suffix_tl
    | apply suffix_skip_ws
    | match goal with
      | |- suffix (tl ?a) _ => apply (suffix_trans (suffix_tl a))
      | |- suffix (skip_ws ?a) _ => apply (suffix_trans (suffix_skip_ws a))
      end ].

Lemma scanstring_suffix (fuel : nat) :
  forall s acc k r, scanstring fuel s acc = Scanned k r -> suffix r s.
Proof.
  induction fuel as [|fuel IH]; intros s acc k r; simpl; [discriminate|].
  destruct s as [|c s1]; [discriminate|].
  destruct (c =? 34)%N; [intros [= _ <-]; sfx|].
  destruct (c =? 92)%N.
  - destruct s1 as [|e r1]; [discriminate|].
    destruct (e =? 117)%N.
    + destruct r1 as [|h1 [|h2 [|h3 [|h4 r2]]]]; try discriminate.
      destruct (hex4 h1 h2 h3 h4) as [u|]; [|discriminate].
      assert (Lone : scanstring fuel r2 (u :: acc) = Scanned k r ->
                     suffix r (c :: e :: h1 :: h2 :: h3 :: h4 :: r2)).
      { intros H. apply IH in H. sfx. }
      destruct (is_high_surrogate u); [|exact Lone].
      destruct r2 as [|b [|x [|l1 [|l2 [|l3 [|l4 r3]]]]]]; try exact Lone.
      destruct ((b =? 92)%N && (x =? 117)%N && nonempty r3); [|exact Lone].
      destruct (hex4 l1 l2 l3 l4) as [u2|]; [|discriminate].
      destruct (is_low_surrogate u2); [|exact Lone].
      intros H. apply IH in H. sfx.
    + destruct (simple_escape e); [|discriminate].
      intros H. apply IH in H. sfx.
  - destruct (c <=? 31)%N; [discriminate|].
    intros H. apply IH in H. sfx.
Qed.

Lemma digits_suffix (s : pystr) :
  forall acc n v m r, digits s acc n = (v, m, r) -> suffix r s.
Proof.
  induction s as [|c s1 IH]; intros acc n v m r; simpl.
  - intros [= _ _ <-]. sfx.
  - destruct (is_digit c).
    + intros H. apply IH in H. sfx.
    + intros [= _ _ <-]. sfx.
Qed.

Lemma integer_part_suffix (s : pystr) (v : N) (r : pystr) :
  integer_part s = Some (v, r) -> suffix r s.
Proof.
  unfold integer_part. destruct s as [|d s1]; [discriminate|].
  destruct (negb (is_digit d)); [discriminate|].
  destruct (d =? 48)%N; [intros [= _ <-]; sfx|].
  destruct (digits (d :: s1) 0 0) as [[v' m] r'] eqn:E.
  intros [= _ <-]. exact (digits_suffix _ _ _ E).
Qed.

Lemma fraction_part_suffix (ipart : N) (s : pystr) (v : N) (m : nat) (r : pystr) :
  fraction_part ipart s = (v, m, r) -> suffix r s.
Proof.
  unfold fraction_part. destruct s as [|p [|f fr]]; try (intros [= _ _ <-]; sfx).
  destruct ((p =? 46)%N && is_digit f); [|intros [= _ _ <-]; sfx].
  intros H. apply digits_suffix in H. sfx.
Qed.

Lemma exponent_part_suffix (s : pystr) (e : option Z) (r : pystr) :
  exponent_part s = (e, r) -> suffix r s.
Proof.
  unfold exponent_part. destruct s as [|c er]; [intros [= _ <-]; sfx|].
  destruct ((c =? 101) || (c =? 69))%N; [|intros [= _ <-]; sfx].
  destruct (digits _ 0 0) as [[v m] r'] eqn:E.
  apply digits_suffix in E.
  destruct m; intros [= _ <-]; [sfx|].
  destruct (startswith er 45 || startswith er 43); sfx.
Qed.

Lemma match_number_suffix (s : pystr) (v : json) (r : pystr) :
  match_number s = Scanned v r -> suffix r s /\ forall d, v <> JObj d.
Proof.
  unfold match_number.
  destruct (integer_part _) as [[ipart s2]|] eqn:Ei; [|discriminate].
  apply integer_part_suffix in Ei.
  destruct (fraction_part ipart s2) as [[mant nfrac] s3] eqn:Ef.
  apply fraction_part_suffix in Ef.
  destruct (exponent_part s3) as [ex s4] eqn:Ee.
  apply exponent_part_suffix in Ee.
  assert (S : suffix s4 s).
  { apply (suffix_trans Ee). apply (suffix_trans Ef). apply (suffix_trans Ei).
    destruct (startswith s 45); sfx. }
  destruct nfrac, ex; intros [= <- <-]; (split; [exact S|discriminate]).
Qed.

Lemma after_word_suffix (w s r : pystr) : after_word w s = Some r -> suffix r s.
Proof.
  revert s. induction w as [|a w IH]; intros [|b s]; simpl; try discriminate.
  - intros [= <-]. sfx.
  - intros [= <-]. sfx.
  - destruct (a =? b)%N; [|discriminate]. intros H. apply IH in H. sfx.
Qed.

Lemma constant_suffix (c : N) (r : pystr) (v : json) (r' : pystr) :
  constant c r = Some (v, r') -> suffix r' r /\ forall d, v <> JObj d.
Proof.
  unfold constant.
  repeat match goal with
         | |- context [if ?b then _ else _] => destruct b
         end;
    try discriminate;
    (destruct (after_word _ r) as [x|] eqn:E; [|discriminate];
     intros [= <- <-]; split; [exact (after_word_suffix _ _ E)|discriminate]).
Qed.

(** What a scanner leaves is a suffix of what it was given; what the
    object scanner leaves comes right after a closing brace. *)
Lemma scan_suffix (fuel : nat) :
  (forall s v r, scan_once fuel s = Scanned v r -> suffix r s)
  /\ (forall s d d' r, members fuel s d = Scanned d' r -> suffix (125%N :: r) s)
  /\ (forall s acc l r, elements fuel s acc = Scanned l r -> suffix r s).
Proof.
  induction fuel as [|fuel (IHs & IHm & IHe)].
  { repeat split; intros; discriminate. }
  split; [|split].
  - intros [|c r0] v r; [discriminate|]. rewrite JsonFacts.scan_once_eq.
    destruct (c =? 34)%N.
    { destruct (scanstring _ r0 []) eqn:E; simpl; try discriminate.
      intros [= _ <-]. apply scanstring_suffix in E. sfx. }
    destruct (c =? 123)%N.
    { destruct (startswith _ 125).
      - intros [= _ <-]. sfx.
      - destruct (members fuel _ []) eqn:E; simpl; try discriminate.
        intros [= _ <-]. apply IHm in E.
        apply suffix_cons. apply (suffix_trans (suffix_cons 125 (suffix_refl _))).
        apply (suffix_trans E). sfx. }
    destruct (c =? 91)%N.
    { destruct (startswith _ 93).
      - intros [= _ <-]. sfx.
      - destruct (elements fuel _ []) eqn:E; simpl; try discriminate.
        intros [= _ <-]. apply IHe in E. sfx. }
    destruct (constant c r0) as [[v' r']|] eqn:E.
    + intros [= _ <-]. apply constant_suffix in E. destruct E as [E _]. sfx.
    + intros H. apply match_number_suffix in H. tauto.
  - intros s d d' r. rewrite JsonFacts.members_eq.
    destruct (startswith s 34) eqn:Eq; [|discriminate].
    destruct (scanstring _ (tl s) []) as [key r1| |] eqn:E; try discriminate.
    apply scanstring_suffix in E.
    destruct (startswith (skip_ws r1) 58); [|discriminate].
    destruct (scan_once fuel _) as [v r3| |] eqn:E3; try discriminate.
    apply IHs in E3.
    assert (S3 : suffix (skip_ws r3) s).
    { apply (suffix_trans (suffix_skip_ws r3)). apply (suffix_trans E3).
      apply (suffix_trans (suffix_skip_ws _)). apply (suffix_trans (suffix_tl _)).
      apply (suffix_trans (suffix_skip_ws _)). apply (suffix_trans E).
      apply suffix_tl. }
    destruct (startswith (skip_ws r3) 125) eqn:E5.
    { intros [= _ <-]. exact (suffix_trans (suffix_head _ _ E5) S3). }
    destruct (startswith (skip_ws r3) 44); [|discriminate].
    intros H'. apply IHm in H'. apply (suffix_trans H').
    apply (suffix_trans (suffix_skip_ws _)). apply (suffix_trans (suffix_tl _)).
    exact S3.
  - intros s acc l r. rewrite JsonFacts.elements_eq.
    destruct (scan_once fuel s) as [v r1| |] eqn:E; try discriminate.
    apply IHs in E.
    destruct (startswith (skip_ws r1) 93); [intros [= _ <-]; sfx|].
    destruct (startswith (skip_ws r1) 44); [|discriminate].
    intros H'. apply IHe in H'. sfx.
Qed.

End JsonShape.

(** ** A response that begins with a brace must end with one *)

Lemma lstrip_head (s : pystr) (c : N) (r : pystr) :
  lstrip s = c :: r -> isspace c = false.
Proof.
  induction s as [|x s IH]; simpl; [discriminate|].
  destruct (isspace x) eqn:E; [exact IH|].
  intros [= <- _]. exact E.
Qed.

Lemma strip_last (t p : pystr) (c : N) : strip t = p ++ [c] -> isspace c = false.
Proof.
  unfold strip, rstrip. intros H.
  apply (f_equal (@rev N)) in H. rewrite rev_involutive, rev_app_distr in H.
  simpl in H. exact (lstrip_head _ H).
Qed.

Lemma is_ws_isspace (c : N) : Json.is_ws c = true -> isspace c = true.
Proof.
  unfold Json.is_ws. rewrite !orb_true_iff, !N.eqb_eq.
  intros [[[-> | ->] | ->] | ->]; reflexivity.
Qed.

Lemma skip_ws_nil_last (w p : pystr) (c : N) :
  Json.skip_ws w = [] -> w = p ++ [c] -> Json.is_ws c = true.
Proof.
  revert p. induction w as [|x w IH]; intros p H E.
  - destruct p; discriminate.
  - simpl in H. destruct (Json.is_ws x) eqn:Ex; [|discriminate].
    destruct p as [|y p].
    + simpl in E. injection E as -> _. exact Ex.
    + simpl in E. injection E as _ E. exact (IH p H E).
Qed.

(** A text that begins with an opening brace and decodes holds a closing
    brace followed by white space only. *)
Lemma loads_closing_brace (s : pystr) (v : json) :
  startswith s (ch "{") = true -> Json.loads s = Some v ->
  exists p w, s = p ++ ch "}" :: w /\ Json.skip_ws w = [].
Proof.
  intros Hs. apply startswith_true in Hs. destruct Hs as [r0 ->].
  unfold Json.loads, Json.loads_scan.
  change (startswith (ch "{" :: r0) 65279) with false. cbv iota.
  change (Json.skip_ws (ch "{" :: r0)) with (ch "{" :: r0).
  destruct (Json.scan_once _ _) as [v' r| |] eqn:E; try discriminate.
  destruct (Json.skip_ws r) eqn:Er; [|discriminate]. intros _.
  rewrite JsonFacts.scan_once_eq in E.
  change (ch "{" =? 34)%N with false in E.
  change (ch "{" =? 123)%N with true in E. cbv iota in E.
  destruct (startswith (Json.skip_ws r0) 125) eqn:E5.
  - injection E as _ <-.
    destruct (JsonShape.suffix_trans (JsonShape.suffix_head _ _ E5)
                (JsonShape.suffix_cons (ch "{") (JsonShape.suffix_skip_ws r0)))
      as [p Hp].
    exists p, (tl (Json.skip_ws r0)). split; [exact Hp|exact Er].
  - destruct (Json.members _ _ []) as [d r'| |] eqn:Em; try discriminate.
    simpl in E. injection E as _ <-.
    apply (proj1 (proj2 (JsonShape.scan_suffix _))) in Em.
    destruct (JsonShape.suffix_trans Em
                (JsonShape.suffix_cons (ch "{") (JsonShape.suffix_skip_ws r0)))
      as [p Hp].
    exists p, r'. split; [exact Hp|exact Er].
Qed.

(** X7. When the stripped response begins with an opening brace, the
    extractor returns a result only if the stripped response also ends
    with a closing brace: commentary after the object makes the extraction
    fail. *)
Theorem brace_response_must_close (W : World) (raw_text : pystr)
    (url : option pystr) (st : State) (t : pystr) (v : json) :
  generate_content W (prompt raw_text url) = inr (Some t) ->
  startswith (strip t) (ch "{") = true ->
  fst (parse_with_gemini W raw_text url st) = Return (Some v) ->
  exists p, strip t = p ++ [ch "}"].
Proof.
  intros Hg Hs Hr. rewrite parse_with_gemini_run in Hr. simpl in Hr.
  unfold gemini_result in Hr. rewrite Hg in Hr.
  rewrite (json_str_startswith _ Hs) in Hr. injection Hr as Hr.
  destruct (loads_closing_brace _ Hs Hr) as (p & w & E & Hw).
  destruct w as [|x w0]; [exists p; exact E|].
  exfalso.
  destruct (@exists_last _ (x :: w0) ltac:(discriminate)) as [w' [c Ew]].
  pose proof (@skip_ws_nil_last _ _ _ Hw Ew) as Hc. apply is_ws_isspace in Hc.
  assert (El : strip t = (p ++ ch "}" :: w') ++ [c]).
  { rewrite E, Ew, <- app_assoc. reflexivity. }
  rewrite (@strip_last _ _ _ El) in Hc. discriminate.
Qed.

Lemma brace_response_must_close_witness :
  exists p, strip (str " {} ") = p ++ [ch "}"].
Proof.
  apply (@brace_response_must_close (answering (Some (str " {} "))) page_text None
           initial (str " {} ") (JObj [])); reflexivity.
Defined.

(** ** Keys of dictionaries *)

Lemma dict_get_none (d : pydict) (k : pystr) :
  dict_get d k = None <-> ~ In k (dict_keys d).
Proof.
  induction d as [|[k0 v0] r IH]; simpl; [tauto|].
  destruct (str_eqb k0 k) eqn:E.
  - apply str_eqb_eq in E. split; [discriminate|]. intros H. exfalso. auto.
  - rewrite IH. split; [|tauto].
    intros H [H'|H']; [|tauto]. subst. rewrite str_eqb_refl in E. discriminate.
Qed.

(** Assignment keeps the keys and their order, a new key going last. *)
Lemma dict_set_keys (d : pydict) (k : pystr) (v : json) :
  dict_keys (dict_set d k v)
  = if dict_contains d k then dict_keys d else dict_keys d ++ [k].
Proof.
  unfold dict_contains. induction d as [|[k0 v0] r IH]; simpl; [reflexivity|].
  destruct (str_eqb k0 k) eqn:E; simpl; [reflexivity|].
  rewrite IH. destruct (dict_get r k); reflexivity.
Qed.

Lemma dict_set_nodup (d : pydict) (k : pystr) (v : json) :
  NoDup (dict_keys d) -> NoDup (dict_keys (dict_set d k v)).
Proof.
  intros H. rewrite dict_set_keys. unfold dict_contains.
  destruct (dict_get d k) eqn:E; [exact H|].
  apply dict_get_none in E.
  apply NoDup_app; [exact H|repeat constructor; auto|].
  intros a Ha [<-|[]]. auto.
Qed.

Lemma dict_contains_set_other (d : pydict) (k k' : pystr) (v : json) :
  str_eqb k k' = false -> dict_contains (dict_set d k v) k' = dict_contains d k'.
Proof. intros H. unfold dict_contains. rewrite dict_get_set_other by exact H. reflexivity. Qed.

Lemma dict_contains_set_same (d : pydict) (k : pystr) (v : json) :
  dict_contains (dict_set d k v) k = true.
Proof. unfold dict_contains. rewrite dict_get_set_same. reflexivity. Qed.

(** Assigning the value a key already has changes nothing. *)
Lemma dict_set_same_value (d : pydict) (k : pystr) (v : json) :
  dict_get d k = Some v -> dict_set d k v = d.
Proof.
  induction d as [|[k0 v0] r IH]; simpl; [discriminate|].
  destruct (str_eqb k0 k) eqn:E.
  - intros [= ->]. reflexivity.
  - intros H. rewrite (IH H). reflexivity.
Qed.

Module JsonKeys.
Import Json.

Lemma members_nodup (fuel : nat) :
  forall s d d' r,
    members fuel s d = Scanned d' r -> NoDup (dict_keys d) -> NoDup (dict_keys d').
Proof.
  induction fuel as [|fuel IH]; intros s d d' r; [discriminate|].
  rewrite JsonFacts.members_eq.
  destruct (startswith s 34); [|discriminate].
  destruct (scanstring _ (tl s) []) as [key r1| |]; try discriminate.
  destruct (startswith (skip_ws r1) 58); [|discriminate].
  destruct (scan_once fuel _) as [v r3| |]; try discriminate.
  destruct (startswith (skip_ws r3) 125).
  { intros [= <- _] H. apply dict_set_nodup, H. }
  destruct (startswith (skip_ws r3) 44); [|discriminate].
  intros H' H. apply (IH _ _ _ _ H'). apply dict_set_nodup, H.
Qed.

(** The keys of a decoded object are pairwise distinct. *)
Lemma loads_keys_distinct (s : pystr) (d : pydict) :
  loads s = Some (JObj d) -> NoDup (dict_keys d).
Proof.
  unfold loads, loads_scan. destruct (startswith s 65279); [discriminate|].
  destruct (scan_once _ (skip_ws s)) as [v r| |] eqn:E; try discriminate.
  destruct (skip_ws r); [|discriminate]. intros [= ->].
  destruct (skip_ws s) as [|c r0]; [discriminate|].
  rewrite JsonFacts.scan_once_eq in E.
  destruct (c =? 34)%N.
  { destruct (scanstring _ r0 []); discriminate. }
  destruct (c =? 123)%N.
  { destruct (startswith _ 125).
    - injection E as <- _. constructor.
    - destruct (members _ _ []) as [d0 r1| |] eqn:Em; try discriminate.
      simpl in E. injection E as <- _.
      apply (members_nodup _ _ _ Em). constructor. }
  destruct (c =? 91)%N.
  { destruct (startswith _ 93); [discriminate|].
    destruct (elements _ _ []); discriminate. }
  destruct (constant c r0) as [[v' r']|] eqn:Ec.
  - injection E as -> _. apply JsonShape.constant_suffix in Ec.
    destruct Ec as [_ Ec]. exfalso. exact (Ec d eq_refl).
  - apply JsonShape.match_number_suffix in E. destruct E as [_ E].
    exfalso. exact (E d eq_refl).
Qed.

End JsonKeys.

(** ** The normaliser as a whole *)

Lemma normalize_keys (as_of : pystr) (lender : Lender) (d : pydict) :
  dict_keys (normalize as_of lender d)
  = dict_keys d
    ++ filter (fun k => negb (dict_contains d k)) [AsOfDate; LenderName; LenderType].
Proof.
  unfold normalize.
  set (d1 := dict_set d (str "As-of Date") (JStr as_of)).
  set (d2 := dict_set d1 (str "Lender Name") _).
  assert (E1 : dict_contains d1 LenderName = dict_contains d LenderName).
  { apply dict_contains_set_other. reflexivity. }
  assert (E2 : dict_contains d2 LenderType = dict_contains d LenderType).
  { unfold d2, d1. rewrite !dict_contains_set_other by reflexivity. reflexivity. }
  assert (K2 : dict_keys d2
               = dict_keys d
                 ++ filter (fun k => negb (dict_contains d k)) [AsOfDate; LenderName]).
  { unfold d2. rewrite dict_set_keys. fold LenderName. rewrite E1.
    unfold d1. rewrite dict_set_keys. fold AsOfDate. simpl.
    destruct (dict_contains d AsOfDate), (dict_contains d LenderName); simpl;
      rewrite <- ?app_assoc, ?app_nil_r; reflexivity. }
  assert (K3 : dict_keys (dict_set d2 (str "Lender Type") (JStr (type lender)))
               = dict_keys d
                 ++ filter (fun k => negb (dict_contains d k))
                           [AsOfDate; LenderName; LenderType]).
  { rewrite dict_set_keys. fold LenderType. rewrite E2, K2. simpl.
    destruct (dict_contains d AsOfDate), (dict_contains d LenderName),
      (dict_contains d LenderType); simpl;
      rewrite <- ?app_assoc, ?app_nil_r; reflexivity. }
  fold LenderType. rewrite E2.
  destruct (dict_contains d LenderType) eqn:C; simpl negb; cbv beta iota.
  - destruct (match dict_get d2 LenderType with Some v => _ | None => false end);
      simpl orb; cbv iota.
    + exact K3.
    + rewrite K2. simpl. rewrite C.
      destruct (dict_contains d AsOfDate), (dict_contains d LenderName); reflexivity.
  - simpl. exact K3.
Qed.

(** A dictionary already in normal form is left as it is. *)
Lemma normalize_fixed (as_of : pystr) (lender : Lender) (d : pydict) (v t : json) :
  dict_get d AsOfDate = Some (JStr as_of) ->
  dict_get d LenderName = Some v ->
  truthy v = true \/ v = JStr (name lender) ->
  dict_get d LenderType = Some t ->
  eq_str t (str "N/A") = false \/ t = JStr (type lender) ->
  normalize as_of lender d = d.
Proof.
  intros Ha Hn Hv Ht Hty. unfold normalize.
  fold AsOfDate LenderName LenderType.
  rewrite (dict_set_same_value _ _ Ha). rewrite Hn.
  assert (Ev : (if truthy v then v else JStr (name lender)) = v).
  { destruct Hv as [-> | ->]; [reflexivity|]. destruct (truthy _); reflexivity. }
  rewrite Ev, (dict_set_same_value _ _ Hn).
  unfold dict_contains. rewrite Ht. cbv beta iota. simpl negb. simpl orb.
  destruct (eq_str t _) eqn:Et; [|reflexivity].
  destruct Hty as [Hty | ->].
  - change (eq_str t (str "N/A")) with (eq_str t [78%N; 47%N; 65%N]) in Hty.
    congruence.
  - apply dict_set_same_value. exact Ht.
Qed.

Lemma normal_name_settled (lender : Lender) (d : pydict) :
  truthy (normal_name lender d) = true \/ normal_name lender d = JStr (name lender).
Proof.
  unfold normal_name. destruct (dict_get d LenderName) as [v|]; [|right; reflexivity].
  destruct (truthy v) eqn:T; [left; exact T|right; reflexivity].
Qed.

Lemma normal_type_settled (lender : Lender) (d : pydict) :
  eq_str (normal_type lender d) (str "N/A") = false
  \/ normal_type lender d = JStr (type lender).
Proof.
  unfold normal_type. destruct (dict_get d LenderType) as [v|]; [|right; reflexivity].
  destruct (eq_str v _) eqn:T; [right; reflexivity|left; exact T].
Qed.

Lemma normalize_other (as_of : pystr) (lender : Lender) (d : pydict) (k : pystr) :
  k <> AsOfDate -> k <> LenderName -> k <> LenderType ->
  dict_get (normalize as_of lender d) k = dict_get d k.
Proof.
  intros Ka Kn Kt.
  assert (forall a, k <> a -> str_eqb a k = false) as F.
  { intros a Ne. destruct (str_eqb a k) eqn:E; [|reflexivity].
    apply str_eqb_eq in E. congruence. }
  unfold normalize. fold AsOfDate LenderName LenderType.
  destruct (_ || _);
    rewrite !dict_get_set_other by (apply F; assumption); reflexivity.
Qed.

Lemma normalizer_keys_distinct (as_of : pystr) (lender : Lender) (d : pydict) :
  NoDup (dict_keys d) -> NoDup (dict_keys (normalize as_of lender d)).
Proof.
  intros H. unfold normalize. destruct (_ || _); repeat apply dict_set_nodup; exact H.
Qed.

(** X8. The normaliser (lines 178 to 181 of [scrape]) touches three keys and
    nothing else: the value under every other key is kept; the keys keep
    their order, and those of the three that were missing are added at the
    end, in the order "As-of Date", "Lender Name", "Lender Type"; distinct
    keys stay distinct; a second pass changes nothing; and a record of the
    fallback parser for the same lender and date is already in normal
    form. *)
Theorem normalizer_frame (as_of : pystr) (lender : Lender) (d : pydict) :
  (forall k, k <> AsOfDate -> k <> LenderName -> k <> LenderType ->
             dict_get (normalize as_of lender d) k = dict_get d k)
  /\ dict_keys (normalize as_of lender d)
     = dict_keys d
       ++ filter (fun k => negb (dict_contains d k)) [AsOfDate; LenderName; LenderType]
  /\ (NoDup (dict_keys d) -> NoDup (dict_keys (normalize as_of lender d)))
  /\ normalize as_of lender (normalize as_of lender d) = normalize as_of lender d
  /\ (forall products,
         normalize as_of lender (fallback_record products lender as_of)
         = fallback_record products lender as_of).
Proof.
  split; [apply normalize_other|]. split; [apply normalize_keys|].
  split; [|split].
  - apply normalizer_keys_distinct.
  - apply (@normalize_fixed as_of lender _ (normal_name lender d) (normal_type lender d)).
    + apply normalize_as_of.
    + apply normalize_name.
    + apply normal_name_settled.
    + apply normalize_type.
    + apply normal_type_settled.
  - intros products.
    apply (@normalize_fixed as_of lender _ (JStr (name lender)) (JStr (type lender)));
      first [reflexivity | right; reflexivity].
Qed.

(** ** The records and the log of a run *)

Lemma fallback_record_keys (products : list pystr) (lender : Lender) (as_of : pystr) :
  dict_keys (fallback_record products lender as_of) = fallback_fieldnames.
Proof. reflexivity. Qed.

Lemma fallback_fieldnames_distinct : NoDup fallback_fieldnames.
Proof.
  unfold fallback_fieldnames.
  repeat (constructor; [simpl; intuition discriminate|]). constructor.
Qed.

Lemma gemini_result_keys (W : World) (raw_text : pystr) (url : option pystr)
    (d : pydict) :
  gemini_result W raw_text url = Some (JObj d) -> NoDup (dict_keys d).
Proof.
  unfold gemini_result. destruct (generate_content W _) as [e|[t|]]; try discriminate.
  apply JsonKeys.loads_keys_distinct.
Qed.

Lemma judge_records_distinct (W : World) (U : Unicode) (as_of : pystr)
    (lender : Lender) (r : pydict) :
  In r (records (judge W U as_of lender)) -> NoDup (dict_keys r).
Proof.
  unfold judge.
  destruct (fetch W (url lender)) as [[[|c h]|]|e]; simpl; try tauto.
  destruct (soup_get_text W (c :: h)) as [e|text]; simpl; try tauto.
  destruct (gemini_result W text (Some (url lender))) as [[]|] eqn:G; simpl; try tauto;
    intros [<-|[]]; apply normalizer_keys_distinct.
  - apply (gemini_result_keys _ _ _ G).
  - rewrite fallback_record_keys. apply fallback_fieldnames_distinct.
Qed.

(** X9. The keys of every record [scrape] returns are pairwise distinct,
    whether the record was decoded from the model's answer or built by the
    fallback parser: the header of the output never repeats a column. *)
Theorem records_have_distinct_keys (W : World) (U : Unicode)
    (lenders : list Lender) (st : State) :
  exists rows st',
    scrape_over W U lenders st = (Return rows, st')
    /\ Forall (fun r => NoDup (dict_keys r)) rows.
Proof.
  destruct (scrape_over_rows W U lenders st) as (st' & E & _).
  eexists. exists st'. split; [exact E|].
  apply Forall_forall. intros r Hr. apply in_flat_map in Hr.
  destruct Hr as (l & _ & Hr). exact (judge_records_distinct _ _ _ _ _ Hr).
Qed.





(** ** The browser over a whole run *)

Lemma get_page_html_trace (W : World) (url : pystr) (st : State) :
  pw_trace (snd (get_page_html W url st)) = pw_trace st ++ fetch_trace W url.
Proof.
  unfold fetch_trace, get_page_html, with_sync_playwright, pw, page_content.
  destruct (browse W url) as [en la np ro go co cl]. simpl. run.
  destruct en, la, np, ro, go, co, cl; simpl; rewrite <- ?app_assoc; reflexivity.
Qed.

(** One page load makes each call at most once, enters the driver once, and
    leaves no browser running. *)
Lemma fetch_trace_sealed (W : World) (url : pystr) :
  browser_open (fetch_trace W url) = false
  /\ count_calls PwEnter (fetch_trace W url) = 1%nat
  /\ forall c, (count_calls c (fetch_trace W url) <= 1)%nat.
Proof.
  unfold fetch_trace, get_page_html, with_sync_playwright, pw, page_content.
  destruct (browse W url) as [en la np ro go co cl]. simpl. run.
  destruct en, la, np, ro, go, co, cl; simpl;
    (split; [reflexivity|split; [reflexivity|intros []; cbv; lia]]).
Qed.

Lemma browser_open_app (a b : list pw_event) :
  browser_open a = false -> browser_open (a ++ b) = browser_open b.
Proof. unfold browser_open. rewrite fold_left_app. intros ->. reflexivity. Qed.

Lemma count_calls_app (c : pw_call) (a b : list pw_event) :
  count_calls c (a ++ b) = (count_calls c a + count_calls c b)%nat.
Proof. unfold count_calls. rewrite filter_app, length_app. reflexivity. Qed.

Section Traces.

Variable W : World.
Variable U : Unicode.

Lemma scrape_lender_trace (as_of : pystr) (rows : list pydict) (lender : Lender)
    (st : State) :
  pw_trace (snd (scrape_lender W U as_of rows lender st))
  = pw_trace st ++ fetch_trace W (url lender).
Proof.
  unfold scrape_lender.
  unfold bind at 1. unfold print at 1. cbv iota beta.
  set (st1 := add_console _ st).
  unfold try_except. unfold bind at 1.
  pose proof (get_page_html_trace W (url lender) st1) as Ht.
  destruct (get_page_html W (url lender) st1) as [r st2].
  change (pw_trace st2 = pw_trace st ++ fetch_trace W (url lender)) in Ht.
  destruct r as [[[|c h]|]|e].
  - run. exact Ht.
  - unfold call_soup_get_text.
    destruct (soup_get_text W (c :: h)) as [e|text].
    + run. exact Ht.
    + unfold bind at 1. unfold ret at 1. unfold bind at 1.
      rewrite parse_with_gemini_run.
      destruct (gemini_result W text (Some (url lender))) as [v|]; [destruct v|];
        run; destruct (gemini_error W text (Some (url lender))); simpl; exact Ht.
  - run. exact Ht.
  - run. exact Ht.
Qed.

Lemma scrape_loop_trace (as_of : pystr) (lenders : list Lender) :
  forall rows st,
    pw_trace (snd (scrape_loop W U as_of lenders rows st))
    = pw_trace st ++ flat_map (fun l => fetch_trace W (url l)) lenders.
Proof.
  induction lenders as [|l rest IH]; intros rows st.
  - simpl. rewrite app_nil_r. reflexivity.
  - simpl scrape_loop. unfold bind.
    pose proof (scrape_lender_trace as_of rows l st) as Ht.
    destruct (scrape_lender_run W U as_of rows l st) as (st1 & E & _).
    rewrite E in Ht |- *. simpl in Ht.
    rewrite IH, Ht. simpl flat_map. rewrite app_assoc. reflexivity.
Qed.

End Traces.

(** X11. Over a whole run of [scrape] each lender's page is loaded once, in
    the order of the list, whatever happened to the lenders before it: the
    browser calls of the run are those of the lenders' page loads one after
    the other, the driver is entered exactly once per lender, no call is
    made more often than there are lenders, and when [scrape] returns no
    browser is left running. *)
Theorem one_page_load_per_lender (W : World) (U : Unicode)
    (lenders : list Lender) (st : State) :
  exists evs,
    pw_trace (snd (scrape_over W U lenders st)) = pw_trace st ++ evs
    /\ evs = flat_map (fun l => fetch_trace W (url l)) lenders
    /\ count_calls PwEnter evs = length lenders
    /\ (forall c, (count_calls c evs <= length lenders)%nat)
    /\ browser_open evs = false.
Proof.
  eexists. split; [apply scrape_loop_trace|]. split; [reflexivity|].
  induction lenders as [|l rest (IH1 & IH2 & IH3)].
  - split; [reflexivity|]. split; [|reflexivity]. intros c. apply le_n.
  - destruct (fetch_trace_sealed W (url l)) as (S1 & S2 & S3).
    simpl flat_map. split; [|split].
    + rewrite count_calls_app, S2, IH1. reflexivity.
    + intros c. rewrite count_calls_app. specialize (S3 c). specialize (IH2 c).
      simpl length. lia.
    + rewrite browser_open_app by exact S1. exact IH3.
Qed.

(** ** Letter case in the page text *)

Section CaseMap.

Variable U : Unicode.
Variable f : N -> N.
Hypothesis f_ieq : forall p c, ieq U p (f c) = ieq U p c.
Hypothesis f_word : forall c, isword U (f c) = isword U c.

Lemma is_word_map (o : option N) : is_word U (option_map f o) = is_word U o.
Proof. destruct o; simpl; [apply f_word|reflexivity]. Qed.

Lemma boundary_map (a b : option N) :
  boundary U (option_map f a) (option_map f b) = boundary U a b.
Proof. unfold boundary. rewrite !is_word_map. reflexivity. Qed.

Lemma hd_error_map (s : pystr) : hd_error (map f s) = option_map f (hd_error s).
Proof. destruct s; reflexivity. Qed.

Lemma match_literal_map (keyword : pystr) :
  forall text last,
    match_literal U keyword (map f text) (option_map f last)
    = match match_literal U keyword text last with
      | Some (l, r) => Some (option_map f l, map f r)
      | None => None
      end.
Proof.
  induction keyword as [|p k IH]; intros text last; [reflexivity|].
  destruct text as [|c r]; [reflexivity|]. simpl.
  rewrite f_ieq. destruct (ieq U p c); [|reflexivity].
  exact (IH r (Some c)).
Qed.

Lemma match_here_map (keyword : pystr) (prev : option N) (text : pystr) :
  match_here U keyword (option_map f prev) (map f text)
  = match_here U keyword prev text.
Proof.
  unfold match_here. rewrite match_literal_map, hd_error_map, boundary_map.
  destruct (match_literal U keyword text prev) as [[l r]|]; [|reflexivity].
  rewrite hd_error_map, boundary_map. reflexivity.
Qed.

Lemma search_from_map (keyword : pystr) :
  forall text prev,
    search_from U keyword (option_map f prev) (map f text)
    = search_from U keyword prev text.
Proof.
  induction text as [|c r IH]; intros prev.
  - pose proof (match_here_map keyword prev []) as H.
    simpl map in H |- *. unfold search_from. rewrite H. reflexivity.
  - pose proof (match_here_map keyword prev (c :: r)) as H.
    pose proof (IH (Some c)) as H'.
    simpl map in H |- *. simpl option_map in H'.
    change (search_from U keyword (option_map f prev) (f c :: map f r))
      with (match_here U keyword (option_map f prev) (f c :: map f r)
            || search_from U keyword (Some (f c)) (map f r)).
    rewrite H, H'. reflexivity.
Qed.

Lemma products_map (text : pystr) : products U (map f text) = products U text.
Proof.
  unfold products. f_equal. apply filter_ext. intros [category keywords].
  simpl snd. induction keywords as [|keyword rest IH]; [reflexivity|].
  simpl existsb. rewrite IH. f_equal.
  exact (search_from_map keyword text None).
Qed.

End CaseMap.

Ltac nbool :=
  unfold ascii_ieq, ascii_lower, ascii_upper, ascii_isword;
  repeat (match goal with
          | |- context [(?a <=? ?b)%N] => destruct (N.leb_spec a b)
          | |- context [(?a =? ?b)%N] => destruct (N.eqb_spec a b)
          | |- context [(?a <? ?b)%N] => destruct (N.ltb_spec a b)
          end; cbn [andb orb negb] in *);
  try reflexivity; try lia.

Lemma ascii_lower_upper (c : N) : ascii_lower (ascii_upper c) = ascii_lower c.
Proof. nbool. Qed.

Lemma ascii_lower_lower (c : N) : ascii_lower (ascii_lower c) = ascii_lower c.
Proof. nbool. Qed.

Lemma ascii_isword_upper (c : N) : ascii_isword (ascii_upper c) = ascii_isword c.
Proof. nbool. Qed.

Lemma ascii_isword_lower (c : N) : ascii_isword (ascii_lower c) = ascii_isword c.
Proof. nbool. Qed.

Lemma is_ascii_upper (text : pystr) :
  is_ascii text = true -> is_ascii (map ascii_upper text) = true.
Proof.
  unfold is_ascii. rewrite !forallb_forall. intros H c Hc.
  apply in_map_iff in Hc. destruct Hc as (x & <- & Hx). specialize (H x Hx).
  revert H. nbool.
Qed.

Lemma is_ascii_lower (text : pystr) :
  is_ascii text = true -> is_ascii (map ascii_lower text) = true.
Proof.
  unfold is_ascii. rewrite !forallb_forall. intros H c Hc.
  apply in_map_iff in Hc. destruct Hc as (x & <- & Hx). specialize (H x Hx).
  revert H. nbool.
Qed.

(** X12. The fallback parser ignores the letter case of the page.  On text of
    ASCII characters, with tables that are on ASCII those of ASCII, the
    categories found are the same when every letter of the text is put in
    upper case, and when every letter is put in lower case. *)
Theorem letter_case_is_ignored (U : Unicode) (text : pystr) :
  agrees_on_ascii U -> is_ascii text = true ->
  products U (map ascii_upper text) = products U text
  /\ products U (map ascii_lower text) = products U text.
Proof.
  intros A T.
  rewrite (products_ascii A (map ascii_upper text)) by (apply is_ascii_upper, T).
  rewrite (products_ascii A (map ascii_lower text)) by (apply is_ascii_lower, T).
  rewrite (products_ascii A text) by exact T.
  split; apply products_map; simpl; intros;
    unfold ascii_ieq;
    rewrite ?ascii_lower_upper, ?ascii_lower_lower, ?ascii_isword_upper,
      ?ascii_isword_lower; reflexivity.
Qed.

Lemma letter_case_is_ignored_witness :
  products ascii_unicode (map ascii_upper (str "A line of credit, or term loans."))
  = products ascii_unicode (str "A line of credit, or term loans.")
  /\ products ascii_unicode (map ascii_lower (str "A line of credit, or term loans."))
     = products ascii_unicode (str "A line of credit, or term loans.").
Proof.
  apply (@letter_case_is_ignored ascii_unicode
           (str "A line of credit, or term loans.")).
  - exact (conj (fun p c _ _ => eq_refl) (fun c _ => eq_refl)).
  - reflexivity.
Defined.

(** ** The writer on records that do not fit the header *)

Section WriterFacts.

Variable W : World.





Lemma write_csv_fits (first : pydict) (rest : list pydict) (st : State) :
  Forall (fits (dict_keys first)) rest ->
  exists st',
    write_csv W (first :: rest) st = (Return tt, st')
    /\ output_file st' = Some (concat (map csv_line (table W first (first :: rest))))
    /\ error_log st' = error_log st.
Proof.
  intros Hrest.
  assert (Hall : Forall (fits (dict_keys first)) (first :: rest)).
  { constructor; [apply fits_self|exact Hrest]. }
  unfold write_csv. unfold bind at 1. unfold open_output at 1. cbv iota beta.
  unfold bind at 1. unfold write_output at 1. cbv iota beta.
  set (st1 := set_output _ (set_output [] st)).
  destruct (@writerows_fits W (dict_keys first) (first :: rest) st1
              ([] ++ csv_line (dict_keys first)) eq_refl Hall)
    as (st2 & E & Ho & _ & Hl).
  unfold bind at 1. rewrite E. cbv iota beta.
  eexists. split; [reflexivity|].
  split; [simpl; rewrite Ho; reflexivity|].
  simpl. rewrite Hl. reflexivity.
Qed.



End WriterFacts.



(** ** The program as a whole *)

Lemma judge_model_down (W : World) (U : Unicode) (as_of : pystr)
    (lender : Lender) (r : pydict) :
  model_down W ->
  In r (records (judge W U as_of lender)) ->
  exists text, r = fallback_record (products U text) lender as_of.
Proof.
  intros D. unfold judge.
  destruct (fetch W (url lender)) as [[[|c h]|]|e]; simpl; try tauto.
  destruct (soup_get_text W (c :: h)) as [e|text]; simpl; try tauto.
  rewrite D. simpl. intros [<-|[]]. exists text.
  apply (@normalize_fixed as_of lender _ (JStr (name lender)) (JStr (type lender)));
    first [reflexivity | right; reflexivity].
Qed.


(** X15. When the model gives no usable answer, whatever it is asked, the
    program never fails.  Every record of the run is a record of the
    fallback parser for one of the lenders of the list and the date of the
    run; [main] returns; and the output file is left as it was when there
    is no record, and otherwise holds the nineteen field names of the
    fallback parser as its header followed by one row per record. *)
Theorem model_down_run_succeeds (W : World) (U : Unicode) (st : State) :
  model_down W ->
  exists rows st1 st',
    scrape W U st = (Return rows, st1)
    /\ main W U st = (Return tt, st')
    /\ Forall (fun r => exists l text,
                 In l LENDERS
                 /\ r = fallback_record (products U text) l (today W)) rows
    /\ (rows = [] -> output_file st' = output_file st)
    /\ (rows <> [] ->
        output_file st'
        = Some (concat (map csv_line
                          (fallback_fieldnames
                             :: map (row_cells W fallback_fieldnames) rows)))).
Proof.
  intros D. unfold main, scrape.
  destruct (scrape_over_rows W U LENDERS st) as (st1 & E & _ & Ho).
  set (rows := flat_map (fun l => records (judge W U (today W) l)) LENDERS) in *.
  assert (Hrows : Forall (fun r => exists l text,
                            In l LENDERS
                            /\ r = fallback_record (products U text) l (today W))
                         rows).
  { apply Forall_forall. intros r Hr. apply in_flat_map in Hr.
    destruct Hr as (l & Hl & Hr).
    destruct (@judge_model_down W U (today W) l r D Hr) as [text ->]. eauto. }
  clearbody rows.
  assert (Hkeys : Forall (fun r => dict_keys r = fallback_fieldnames) rows).
  { apply Forall_forall. intros r Hr.
    destruct (proj1 (Forall_forall _ _) Hrows r Hr) as (l & text & _ & ->).
    reflexivity. }
  unfold bind. rewrite E. cbv iota beta.
  destruct rows as [|first rest].
  - eexists. eexists. eexists. split; [reflexivity|]. split; [reflexivity|].
    split; [constructor|]. split; [intros _; exact Ho|congruence].
  - inversion Hkeys as [|? ? Kfirst Krest]; subst.
    destruct (@write_csv_fits W first rest st1) as (st2 & Ew & Ow & _).
    { apply Forall_forall. intros r Hr k Hk. apply mem_in.
      rewrite (proj1 (Forall_forall _ _) Krest r Hr) in Hk.
      rewrite Kfirst. exact Hk. }
    exists (first :: rest), st1, st2.
    split; [reflexivity|]. split; [exact Ew|]. split; [exact Hrows|].
    split; [discriminate|]. intros _. rewrite Ow. unfold table.
    rewrite Kfirst. reflexivity.
Qed.

Lemma model_down_run_succeeds_witness :
  exists rows st1 st',
    scrape (answering None) ascii_unicode initial = (Return rows, st1)
    /\ main (answering None) ascii_unicode initial = (Return tt, st')
    /\ Forall (fun r => exists l text,
                 In l LENDERS
                 /\ r = fallback_record (products ascii_unicode text) l
                          (today (answering None))) rows
    /\ (rows = [] -> output_file st' = output_file initial)
    /\ (rows <> [] ->
        output_file st'
        = Some (concat (map csv_line
                          (fallback_fieldnames
                             :: map (row_cells (answering None) fallback_fieldnames)
                                    rows)))).
Proof.
  apply (@model_down_run_succeeds (answering None) ascii_unicode initial).
  intros text url. reflexivity.
Defined.

(** ** Text too short to hold a keyword *)

Section ShortText.

Variable U : Unicode.

Lemma match_literal_length (keyword : pystr) :
  forall text last r,
    match_literal U keyword text last = Some r ->
    (length keyword <= length text)%nat.
Proof.
  induction keyword as [|p k IH]; intros text last r H; simpl; [lia|].
  destruct text as [|c t]; [discriminate|]. simpl in H |- *.
  destruct (ieq U p c); [|discriminate].
  apply IH in H. lia.
Qed.

Lemma search_from_short (keyword : pystr) :
  forall text prev,
    (length text < length keyword)%nat -> search_from U keyword prev text = false.
Proof.
  induction text as [|c t IH]; intros prev H.
  - unfold search_from, match_here.
    destruct (match_literal U keyword [] prev) eqn:E.
    + apply match_literal_length in E. lia.
    + rewrite andb_false_r. reflexivity.
  - change (search_from U keyword prev (c :: t))
      with (match_here U keyword prev (c :: t) || search_from U keyword (Some c) t).
    rewrite IH by (simpl in H; lia). unfold match_here.
    destruct (match_literal U keyword (c :: t) prev) eqn:E.
    + apply match_literal_length in E. lia.
    + rewrite andb_false_r. reflexivity.
Qed.

Lemma existsb_search_short (text : pystr) (keywords : list pystr) :
  (length text < 9)%nat ->
  forallb (fun k => (9 <=? length k)%nat) keywords = true ->
  existsb (fun keyword => re_search U keyword text) keywords = false.
Proof.
  intros H. induction keywords as [|k ks IH]; [reflexivity|].
  cbn [forallb existsb]. intros F. apply andb_true_iff in F. destruct F as [Fk Fks].
  apply Nat.leb_le in Fk. unfold re_search at 1.
  rewrite search_from_short by lia. exact (IH Fks).
Qed.

End ShortText.

(** X16. A page text of fewer than nine characters, the empty text included,
    holds no keyword, whatever the tables of the regex engine: the fallback
    parser finds no category and the record says "N/A" under "General
    Product Types". *)
Theorem short_text_no_product (U : Unicode) (text : pystr) (lender : Lender)
    (as_of : pystr) :
  (length text < 9)%nat ->
  products U text = []
  /\ dict_get (fallback_record (products U text) lender as_of) GeneralProductTypes
     = Some NA.
Proof.
  intros H.
  assert (E : products U text = []).
  { unfold products.
    assert (F : forall pk, In pk product_keywords ->
                  existsb (fun keyword => re_search U keyword text) (snd pk) = false).
    { intros pk Hin. apply existsb_search_short; [exact H|].
      unfold product_keywords in Hin.
      repeat (destruct Hin as [<-|Hin]; [reflexivity|]). destruct Hin. }
    revert F. generalize product_keywords. intros table F.
    induction table as [|pk rest IH]; [reflexivity|].
    cbn [filter]. rewrite F by (left; reflexivity).
    apply IH. intros pk' Hin. apply F. right. exact Hin. }
  rewrite E. split; reflexivity.
Qed.

Lemma short_text_no_product_witness :
  products ascii_unicode (str "Loans") = []
  /\ dict_get (fallback_record (products ascii_unicode (str "Loans")) street
                 (str "2025-01-01")) GeneralProductTypes
     = Some NA.
Proof.
  apply (@short_text_no_product ascii_unicode (str "Loans") street (str "2025-01-01")).
  simpl. lia.
Defined.
